(** * bookGenerator: the document assembly and merge engine of
      [book_generator.py], embedded in Rocq.

    Conventions of the embedding.
    - Python [str] values are [string] (sequences of characters below 128);
      indexes and page numbers are [nat]; font sizes are [Z].
    - Colour channels and luminance are IEEE binary64 numbers
      ([PrimFloat.float]), the arithmetic Python's [float] performs. Lengths
      on the page (points) are exact rationals [Q]: the binary64 values the
      program holds, with the rounding of its arithmetic left out. What is
      stated about a computed length holds of the program where that
      arithmetic is exact.
    - A call that may raise is an [outcome]; [try_except] is Python's
      [try: ... except Exception: ...].
    - What the program obtains from PIL, reportlab, pypdf, [glob] and the
      file system (image statistics, paragraph measurement, the layout of
      flowables in a frame, the matches of a pattern, the pages of a PDF
      file) enters as Section variables. The markup of a paragraph text is
      not parsed: a text that reportlab refuses is outside the embedding. *)

From Stdlib Require Import ZArith QArith Qabs Lia Lqa List String Ascii.
From Stdlib Require Import Permutation Sorted PrimFloat.
From Equations Require Import Equations.
From stdpp Require Import base tactics option list gmap strings pretty.

Import ListNotations.
Local Open Scope string_scope.
Local Open Scope list_scope.
Set Warnings "-inexact-float".

(** ** Exceptions and fallible calls *)

(** A raised exception, by the name of its class. Only classes deriving from
    [Exception] occur; interrupts of the interpreter are outside the model. *)
Inductive exn : Type :=
| Exception (cls : string).

Inductive outcome (A : Type) : Type :=
| Returns (a : A)
| Raises (e : exn).
Arguments Returns {A} a.
Arguments Raises {A} e.

#[global] Instance outcome_ret : MRet outcome := fun A a => Returns a.

#[global] Instance outcome_bind : MBind outcome := fun A B k m =>
  match m with
  | Returns a => k a
  | Raises e => Raises e
  end.

(** [try: body / except Exception as e: handler(e)]. *)
Definition try_except {A : Type} (body : outcome A) (handler : exn -> outcome A)
  : outcome A :=
  match body with
  | Returns a => Returns a
  | Raises e => handler e
  end.

(** A [for] loop that collects one result for each element and stops at the
    first one that raises. *)
Fixpoint mapM {A B : Type} (f : A -> outcome B) (l : list A) : outcome (list B) :=
  match l with
  | [] => Returns []
  | a :: l' => b ← f a; bs ← mapM f l'; Returns (b :: bs)
  end.

Definition AttributeError : exn := Exception "AttributeError".
Definition ZeroDivisionError : exn := Exception "ZeroDivisionError".
Definition FileNotFoundError : exn := Exception "FileNotFoundError".

(** ** Colour sampler: [color_from_image], [text_color_for_image] *)

Module Sampler.

(** [reportlab.lib.colors.Color(red, green, blue)]. *)
Record Color : Type := mkColor { red : float; green : float; blue : float }.

Definition white : Color := mkColor 1 1 1.
Definition black : Color := mkColor 0 0 0.

(** [lum = (0.299 * r + 0.587 * g + 0.114 * b) / 255.0] *)
Definition luminance (r g b : float) : float :=
  ((0.299 * r + 0.587 * g + 0.114 * b) / 255.0)%float.

Definition default_threshold : float := 0.5%float.

Section Sampling.

(** [ImageStat.Stat(PILImage.open(path).convert("RGB").resize((64, 64))).mean]:
    the channel means of the downsampled image, or the error raised while
    opening or decoding it. *)
Variable image_mean : string -> outcome (float * float * float).

Definition color_from_image (path : string) : outcome (option Color) :=
  try_except
    ('(r, g, b) ← image_mean path;
     Returns (Some (mkColor (r / 255.0) (g / 255.0) (b / 255.0))%float))
    (fun _ => Returns None).

Definition text_color_for_image (path : string) (threshold : float)
  : outcome Color :=
  try_except
    ('(r, g, b) ← image_mean path;
     let lum := luminance r g b in
     if (lum <? threshold)%float then Returns white else Returns black)
    (fun _ => Returns black).

End Sampling.

End Sampler.

(** ** Image resolver: [load_image_paths] *)

Module Images.

Definition is_digit (c : ascii) : bool :=
  ((48 <=? N_of_ascii c) && (N_of_ascii c <=? 57))%N.

Definition digit_value (c : ascii) : N := (N_of_ascii c - 48)%N.

(** [str.lower] on characters below 128. *)
Definition lower_char (c : ascii) : ascii :=
  if ((65 <=? N_of_ascii c) && (N_of_ascii c <=? 90))%N
  then ascii_of_N (N_of_ascii c + 32)
  else c.

Fixpoint lower (s : string) : string :=
  match s with
  | "" => ""
  | String c r => String (lower_char c) (lower r)
  end.

(** [os.path.basename]: what follows the last ["/"]; [cur] is the component
    read so far, reversed. *)
Fixpoint basename_from (cur p : string) : string :=
  match p with
  | "" => String.rev cur
  | String c r =>
      if Ascii.eqb c "/" then basename_from "" r
      else basename_from (String c cur) r
  end.

Definition basename (p : string) : string := basename_from "" p.

(** [p.rfind(".")] *)
Fixpoint rfind_dot (s : string) : option nat :=
  match s with
  | "" => None
  | String c r =>
      match rfind_dot r with
      | Some i => Some (S i)
      | None => if Ascii.eqb c "." then Some 0 else None
      end
  end.

Fixpoint all_dots (s : string) : bool :=
  match s with
  | "" => true
  | String c r => Ascii.eqb c "." && all_dots r
  end.

(** [os.path.splitext(name)[0]] for a name without separator: cut at the last
    dot unless only dots precede it. *)
Definition splitext_root (name : string) : string :=
  match rfind_dot name with
  | Some i =>
      let root := substring 0 i name in
      if all_dots root then name else root
  | None => name
  end.

Fixpoint take_digits (s : string) : string :=
  match s with
  | "" => ""
  | String c r => if is_digit c then String c (take_digits r) else ""
  end.

(** [re.search(r'\d+', name)]: the leftmost, longest run of digits. *)
Fixpoint first_digit_run (s : string) : option string :=
  match s with
  | "" => None
  | String c r => if is_digit c then Some (take_digits s) else first_digit_run r
  end.

Fixpoint int_from (acc : N) (ds : string) : N :=
  match ds with
  | "" => acc
  | String c r => int_from (acc * 10 + digit_value c)%N r
  end.

(** [int(m.group())] *)
Definition int_of_digits (ds : string) : N := int_from 0%N ds.

(** First component of the sort key: an [int], or [float("inf")]. *)
Inductive num_key : Type :=
| Finite (n : N)
| Infinity.

Definition key : Type := (num_key * string)%type.

Definition numeric_key (path : string) : key :=
  let name := splitext_root (basename path) in
  match first_digit_run name with
  | Some ds => (Finite (int_of_digits ds), lower name)
  | None => (Infinity, lower name)
  end.

Definition num_ltb (a b : num_key) : bool :=
  match a, b with
  | Finite x, Finite y => (x <? y)%N
  | Finite _, Infinity => true
  | Infinity, _ => false
  end.

Definition num_eqb (a b : num_key) : bool :=
  match a, b with
  | Finite x, Finite y => (x =? y)%N
  | Infinity, Infinity => true
  | _, _ => false
  end.

(** Python's [<] on the key tuples. *)
Definition key_ltb (k1 k2 : key) : bool :=
  num_ltb (fst k1) (fst k2)
  || (num_eqb (fst k1) (fst k2) && String.ltb (snd k1) (snd k2)).

(** [numeric_key(p) <= numeric_key(q)], as [not (key(q) < key(p))]. *)
Definition key_le (k1 k2 : key) : Prop := key_ltb k2 k1 = false.

#[global] Instance num_key_eq_dec : EqDecision num_key.
Proof. solve_decision. Defined.

(** [sorted(paths, key=numeric_key)]: a stable sort that compares keys with
    [<] only; an element is inserted before the first one that is not
    smaller. *)
Fixpoint insert_by_key (x : string) (l : list string) : list string :=
  match l with
  | [] => [x]
  | y :: l' =>
      if key_ltb (numeric_key y) (numeric_key x)
      then y :: insert_by_key x l'
      else x :: y :: l'
  end.

Fixpoint sorted_by_key (l : list string) : list string :=
  match l with
  | [] => []
  | x :: l' => insert_by_key x (sorted_by_key l')
  end.

Fixpoint ends_with (suffix s : string) : bool :=
  String.eqb s suffix
  || match s with
     | "" => false
     | String _ r => ends_with suffix r
     end.

(** [os.path.join(images_dir, name)] *)
Definition path_join (dir name : string) : string :=
  if String.eqb dir "" || ends_with "/" dir then dir +:+ name
  else dir +:+ "/" +:+ name.

(** [exts = ("*.png", "*.jpg", "*.jpeg", "*.PNG", "*.JPG", "*.JPEG")] *)
Definition exts : list string :=
  ["*.png"; "*.jpg"; "*.jpeg"; "*.PNG"; "*.JPG"; "*.JPEG"].

(** The key as the specification words it: the number of the first digit run
    and the lowercased file name, extension included. The program sorts by
    [numeric_key]. *)
Definition spec_key (path : string) : key :=
  (fst (numeric_key path), lower (basename path)).

Section Directory.

(** [glob.glob(pathname)]: the paths that match the pattern, in the order
    [glob] yields them. *)
Variable glob : string -> list string.

Definition load_image_paths (images_dir : string) : list string :=
  let paths :=
    concat (map (fun pattern => glob (path_join images_dir pattern)) exts) in
  sorted_by_key paths.

End Directory.

End Images.

(** ** Page text composition: [split_into_sentences] and the loop head of
       [build_inner_book] *)

Module Text.

(** [str.isspace] on characters below 128, which is also [\s] of [re]. *)
Definition is_space (c : ascii) : bool :=
  let n := N_of_ascii c in
  (((9 <=? n) && (n <=? 13)) || ((28 <=? n) && (n <=? 32)))%N.

(** The class [[.!?]]. *)
Definition is_terminator (c : ascii) : bool :=
  Ascii.eqb c "." || Ascii.eqb c "!" || Ascii.eqb c "?".

Definition newline : ascii := "010"%char.

Fixpoint lstrip (s : string) : string :=
  match s with
  | "" => ""
  | String c r => if is_space c then lstrip r else s
  end.

Fixpoint rstrip (s : string) : string :=
  match s with
  | "" => ""
  | String c r =>
      match rstrip r with
      | "" => if is_space c then "" else String c ""
      | r' => String c r'
      end
  end.

(** [s.strip()] *)
Definition strip (s : string) : string := rstrip (lstrip s).

(** Puts [c] in front of the first piece of a split. *)
Definition cons_head (c : ascii) (pieces : list string) : list string :=
  match pieces with
  | [] => [String c ""]
  | p :: ps => String c p :: ps
  end.

(** [s.split("\n\n")] *)
Fixpoint split_blank (s : string) : list string :=
  match s with
  | "" => [""]
  | String c1 r =>
      match r with
      | String c2 r' =>
          if Ascii.eqb c1 newline && Ascii.eqb c2 newline
          then "" :: split_blank r'
          else cons_head c1 (split_blank r)
      | "" => cons_head c1 (split_blank r)
      end
  end.

Definition starts_with_space (s : string) : bool :=
  match s with
  | String c _ => is_space c
  | "" => false
  end.

(** [re.split(r'(?<=[.!?])\s+', s)]: a piece ends after a terminator that is
    followed by white space, and the whole run of white space is dropped.
    [skipping] holds while that run is being consumed. *)
Fixpoint re_split (skipping : bool) (s : string) : list string :=
  match s with
  | "" => [""]
  | String c r =>
      if skipping && is_space c then re_split true r
      else if is_terminator c && starts_with_space r
           then String c "" :: re_split true r
           else cons_head c (re_split false r)
  end.

Definition nonempty (s : string) : bool := negb (String.eqb s "").

(** The separator of [page_text.split("\n\n")]. *)
Definition blank_line : string := String newline (String newline "").

(** [p] ends with one of [. ! ?]. *)
Definition ends_in_terminator (p : string) : Prop :=
  exists q c, p = q +:+ String c "" /\ is_terminator c = true.

Definition split_into_sentences (text : string) : list string :=
  List.filter nonempty (re_split false (strip text)).

(** [raw_chunks = [p.strip() for p in page_text.split("\n\n") if p.strip()]] *)
Definition raw_chunks (page_text : string) : list string :=
  map strip (List.filter (fun p => nonempty (strip p)) (split_blank page_text)).

(** [chunk_html = "<br/><br/>".join(sentences)] *)
Definition chunk_html (chunk : string) : string :=
  String.concat "<br/><br/>" (split_into_sentences chunk).

(** [html_text = "<br/><br/>".join(chunk_html_parts) if chunk_html_parts else ""] *)
Definition html_text (page_text : string) : string :=
  let chunk_html_parts := map chunk_html (raw_chunks page_text) in
  match chunk_html_parts with
  | [] => ""
  | _ => String.concat "<br/><br/>" chunk_html_parts
  end.

(** What can be observed of a text and of a split. *)

(** The text holds the separator [\n\n]. *)
Fixpoint has_blank_line (s : string) : bool :=
  match s with
  | String c1 r =>
      match r with
      | String c2 _ =>
          (Ascii.eqb c1 newline && Ascii.eqb c2 newline) || has_blank_line r
      | "" => false
      end
  | "" => false
  end.

(** The text holds a place where the pattern [(?<=[.!?])\s+] matches: a
    terminator with white space after it. *)
Fixpoint has_boundary (s : string) : bool :=
  match s with
  | String c r => (is_terminator c && starts_with_space r) || has_boundary r
  | "" => false
  end.

Fixpoint all_space (s : string) : bool :=
  match s with
  | String c r => is_space c && all_space r
  | "" => true
  end.

(** The pieces of a split with a separator put back between each two. *)
Fixpoint weave (pieces seps : list string) : string :=
  match pieces with
  | [] => ""
  | p :: ps =>
      match ps, seps with
      | _ :: _, sep :: seps' => p +:+ sep +:+ weave ps seps'
      | _, _ => p
      end
  end.

(** The text holds none of the characters [<], [>] and [&], with which the
    markup of a reportlab paragraph is written. *)
Fixpoint markup_free (s : string) : bool :=
  match s with
  | String c r =>
      negb (Ascii.eqb c "<" || Ascii.eqb c ">" || Ascii.eqb c "&")
      && markup_free r
  | "" => true
  end.

End Text.

(** ** Flowables and paragraph styles (reportlab platypus) *)

(** The attributes of a [ParagraphStyle] that the program sets; what a style
    does not set it takes from its parent. *)
Record ParagraphStyle : Type := mkStyle {
  style_name : string;
  fontName : string;
  fontSize : Z;
  leading : Z;
  alignment : Z;
  textColor : Sampler.Color
}.

Definition TA_CENTER : Z := 1.

Inductive Flowable : Type :=
| Spacer (width height : Q)
| Paragraph (text : string) (style : ParagraphStyle)
| PageBreak
| FullPageImage (path : string) (page_width page_height : Q) (imgw imgh : Z).

Inductive CanvasOp : Type :=
| saveState
| setFillColor (c : Sampler.Color)
| rect (x y width height : Q) (stroke fill : Z)
| restoreState.

(** [reportlab.lib.pagesizes.inch] *)
Definition inch : Q := 72.

(** ** Text fitter: [create_fitting_paragraph] *)

Module Fitter.

(** [ParagraphStyle(name=f"{base_style.name}_{size}", parent=base_style,
    fontSize=size, leading=size + 4)] *)
Definition sized_style (base_style : ParagraphStyle) (size : Z) : ParagraphStyle :=
  {| style_name := style_name base_style +:+ "_" +:+ pretty size;
     fontName := fontName base_style;
     fontSize := size;
     leading := (size + 4)%Z;
     alignment := alignment base_style;
     textColor := textColor base_style |}.

Section Fitting.

(** [Paragraph(text, style).wrap(availWidth, availHeight)]: the width and the
    height the paragraph takes. *)
Variable wrap : string -> ParagraphStyle -> Q -> Q -> Q * Q.

Variable html_text : string.
Variable base_style : ParagraphStyle.
Variables max_width max_height : Q.
Variable min_font_size : Z.

(** The test [h <= max_height] succeeds for the paragraph of size [size]. *)
Definition fits (size : Z) : Prop :=
  (snd (wrap html_text (sized_style base_style size) max_width max_height)
   <= max_height)%Q.

(** The [while size >= min_font_size] loop, with its two variables. *)
Equations? fit_loop (size : Z) (last_para : option Flowable)
  : option Flowable * Z
  by wf (Z.to_nat (size - min_font_size + 1)) lt :=
fit_loop size last_para with decide (min_font_size <= size)%Z := {
  | left _ =>
      let style := sized_style base_style size in
      let para := Paragraph html_text style in
      let h := snd (wrap html_text style max_width max_height) in
      if Qle_bool h max_height then (Some para, size)
      else fit_loop (size - 1) (Some para);
  | right _ => (last_para, min_font_size) }.
Proof. lia. Qed.

Definition create_fitting_paragraph (base_font_size : Z) : option Flowable * Z :=
  fit_loop base_font_size None.

End Fitting.

End Fitter.

(** ** Pagination planner and document assembler: [make_on_page_callback],
       [build_inner_book] *)

Module Assembler.

(** The manuscript as [json.load] returns it: ["title"] and ["author"] may be
    absent, ["pages"] is a list of strings. *)
Record Manuscript : Type := mkManuscript {
  title : option string;
  author : option string;
  pages : list string
}.

(** [title = data.get("title", ""); has_title = bool(title)] *)
Definition has_title (manuscript : Manuscript) : bool :=
  negb (String.eqb (default "" (title manuscript)) "").

(** One page of the built document: what the [onPage] callback painted and the
    flowables placed in the frame. *)
Record Page : Type := mkPage {
  background : list CanvasOp;
  content : list Flowable
}.

(** The loop that fills [page_to_image_index]; the state is
    [(page_to_image_index, current_page, img_index)]. *)
Definition plan_step (n_images : nat) (st : gmap nat nat * nat * nat)
  : gmap nat nat * nat * nat :=
  let '(page_to_image_index, current_page, img_index) := st in
  let text_page_num := current_page in
  (if Nat.ltb img_index n_images
   then <[text_page_num := img_index]> page_to_image_index
   else page_to_image_index,
   current_page + 2,
   img_index + 1).

Definition plan (has_title : bool) (n_pages n_images : nat)
  : gmap nat nat * nat * nat :=
  let current_page := if has_title then 1 + 1 else 1 in
  Nat.iter n_pages (plan_step n_images) (∅, current_page, 0).

(** [Frame(x1, y1, width, height, id="normal")] *)
Record Frame : Type := mkFrame {
  x1 : Q;
  y1 : Q;
  frame_width : Q;
  frame_height : Q
}.

(** The runs of flowables that the page breaks of a story delimit: a
    [PageBreak] ends the run it follows, also an empty one, and what follows
    the last break is a run when it is not empty. [cur] holds the flowables of
    the open run, last first. *)
Fixpoint runs_from (cur : list Flowable) (story : list Flowable)
  : list (list Flowable) :=
  match story with
  | [] => match cur with [] => [] | _ => [rev cur] end
  | PageBreak :: rest => rev cur :: runs_from [] rest
  | f :: rest => runs_from (f :: cur) rest
  end.

Definition runs (story : list Flowable) : list (list Flowable) :=
  runs_from [] story.

(** The manuscript holds no markup of its own. *)
Definition markup_free (manuscript : Manuscript) : Prop :=
  Text.markup_free (default "" (title manuscript)) = true /\
  Text.markup_free (default "" (author manuscript)) = true /\
  Forall (fun page_text => Text.markup_free page_text = true) (pages manuscript).

Section Build.

Variable image_mean : string -> outcome (float * float * float).
Variable wrap : string -> ParagraphStyle -> Q -> Q -> Q * Q.

(** [ImageReader(path).getSize()], called by [FullPageImage.__init__]. *)
Variable image_size : string -> outcome (Z * Z).

(** The sorted paths that [load_image_paths(images_dir)] returned. *)
Variable image_paths : list string.

(** The pages on which [BaseDocTemplate.build] places a run of flowables, in
    the frame of the page template: the one page that holds the run when it
    fits the frame, whose inside is 6 points of padding smaller on every side
    and which puts the [spaceBefore] of its style above a paragraph that is
    not at the top; several pages when a paragraph is split because it does
    not fit; or the [LayoutError] raised for a flowable that is too large and
    cannot be split. *)
Variable lay_out : Frame -> list Flowable -> outcome (list (list Flowable)).

(** [on_page(canvas, doc)] of [make_on_page_callback], for [doc.page =
    page_num]: the operations it sends to the canvas. *)
Definition on_page (page_to_image_index : gmap nat nat)
    (page_width page_height : Q) (page_num : nat) : outcome (list CanvasOp) :=
  match page_to_image_index !! page_num with
  | None => Returns []
  | Some img_idx =>
      if Nat.ltb img_idx (length image_paths) then
        match image_paths !! img_idx with
        | Some path =>
            color ← Sampler.color_from_image image_mean path;
            match color with
            | None => Returns []
            | Some c =>
                Returns [saveState; setFillColor c;
                         rect 0 0 page_width page_height 0 1; restoreState]
            end
        | None => Raises (Exception "IndexError")
        end
      else Returns []
  end.

(** [FullPageImage(path, page_width, page_height)] *)
Definition new_FullPageImage (path : string) (page_width page_height : Q)
  : outcome Flowable :=
  '(imgw, imgh) ← image_size path;
  Returns (FullPageImage path page_width page_height imgw imgh).

(** The [wrap] method of each flowable class: [Spacer] answers its own size,
    [PageBreak] (a [UseUpSpace]) what is available, [FullPageImage] [(0, 0)]. *)
Definition flowable_wrap (f : Flowable) (availWidth availHeight : Q) : Q * Q :=
  match f with
  | Spacer width height => (width, height)
  | Paragraph text style => wrap text style availWidth availHeight
  | PageBreak => (availWidth, (availHeight - (1 # 100000000))%Q)
  | FullPageImage _ _ _ _ _ => (0%Q, 0%Q)
  end.

(** [top_space = (usable_height - h) / 2.0 if h < usable_height else 0] *)
Definition top_space (usable_height h : Q) : Q :=
  if Qlt_le_dec h usable_height then ((usable_height - h) / 2)%Q else 0%Q.

Definition title_style : ParagraphStyle :=
  mkStyle "TitleCentered" "Helvetica-Bold" 26 30 TA_CENTER Sampler.black.

Definition author_style : ParagraphStyle :=
  mkStyle "AuthorCentered" "Helvetica-Oblique" 18 22 TA_CENTER Sampler.black.

(** The title page, built when [has_title]. *)
Definition title_story (title author : string) (usable_width usable_height : Q)
  : list Flowable :=
  let th := snd (wrap title title_style usable_width usable_height) in
  if String.eqb author "" then
    [Spacer 1 (top_space usable_height th);
     Paragraph title title_style;
     PageBreak]
  else
    let by_author := "by " +:+ author in
    let ah := snd (wrap by_author author_style usable_width usable_height) in
    let total_height := (th + ((1 # 4) * inch + ah))%Q in
    [Spacer 1 (top_space usable_height total_height);
     Paragraph title title_style;
     Spacer 1 ((1 # 4) * inch);
     Paragraph by_author author_style;
     PageBreak].

(** One turn of [for page_text in pages]; the state is [(story, img_index)]. *)
Definition page_step (body_base : ParagraphStyle) (font_size : Z)
    (page_width page_height usable_width usable_height : Q)
    (st : list Flowable * nat) (page_text : string)
  : outcome (list Flowable * nat) :=
  let '(story, img_index) := st in
  let html_text := Text.html_text page_text in
  text_color ←
    (if Nat.ltb img_index (length image_paths) then
       match image_paths !! img_index with
       | Some path =>
           Sampler.text_color_for_image image_mean path Sampler.default_threshold
       | None => Raises (Exception "IndexError")
       end
     else Returns Sampler.black);
  let page_style :=
    {| style_name := "BodyPage";
       fontName := fontName body_base;
       fontSize := fontSize body_base;
       leading := leading body_base;
       alignment := alignment body_base;
       textColor := text_color |} in
  let '(para, used_size) :=
    Fitter.create_fitting_paragraph wrap html_text page_style
      usable_width usable_height 5 font_size in
  match para with
  | None => Raises AttributeError
  | Some para =>
      let h := snd (flowable_wrap para usable_width usable_height) in
      let story :=
        story ++ [Spacer 1 (top_space usable_height h); para; PageBreak] in
      if Nat.ltb img_index (length image_paths) then
        match image_paths !! img_index with
        | Some img_path =>
            image ← new_FullPageImage img_path page_width page_height;
            Returns (story ++ [image; PageBreak], img_index + 1)
        | None => Raises (Exception "IndexError")
        end
      else Returns (story ++ [PageBreak], img_index)
  end.

Fixpoint page_loop (body_base : ParagraphStyle) (font_size : Z)
    (page_width page_height usable_width usable_height : Q)
    (st : list Flowable * nat) (pages : list string)
  : outcome (list Flowable * nat) :=
  match pages with
  | [] => Returns st
  | page_text :: rest =>
      st' ← page_step body_base font_size page_width page_height
              usable_width usable_height st page_text;
      page_loop body_base font_size page_width page_height
        usable_width usable_height st' rest
  end.

(** The [onPage] callback of the page template on the pages laid out: it runs
    once for each page, with [doc.page] counting from 1. *)
Fixpoint build_from (on_page : nat -> outcome (list CanvasOp)) (page_num : nat)
    (pages : list (list Flowable)) : outcome (list Page) :=
  match pages with
  | [] => Returns []
  | flowables :: rest =>
      ops ← on_page page_num;
      built ← build_from on_page (S page_num) rest;
      Returns (mkPage ops flowables :: built)
  end.

(** The pages of one run. A [PageBreak] that follows no flowable ends its page
    as well: the run is a page without content. *)
Definition lay_out_run (frame : Frame) (run : list Flowable)
  : outcome (list (list Flowable)) :=
  match run with
  | [] => Returns [[]]
  | _ => lay_out frame run
  end.

(** [doc.build(story)]: the runs of the story are laid out one after the
    other, and the callback paints every page that results. *)
Definition build (on_page : nat -> outcome (list CanvasOp)) (frame : Frame)
    (story : list Flowable) : outcome (list Page) :=
  laid ← mapM (lay_out_run frame) (runs story);
  build_from on_page 1 (concat laid).

(** The story that [build_inner_book] hands to [doc.build]: the title page,
    then what the loop over the manuscript pages appends. *)
Definition book_story (manuscript : Manuscript) (font_size : Z)
    (margin_inch page_width_inch page_height_inch : Q) : outcome (list Flowable) :=
  let title := default "" (title manuscript) in
  let author := default "" (author manuscript) in
  let pages := pages manuscript in
  let has_title := has_title manuscript in
  let page_width := (page_width_inch * inch)%Q in
  let page_height := (page_height_inch * inch)%Q in
  let margin := (margin_inch * inch)%Q in
  let body_base :=
    mkStyle "BodyBase" "Helvetica" font_size (font_size + 4)%Z TA_CENTER
      Sampler.black in
  let usable_width := (page_width - 2 * margin)%Q in
  let usable_height := (page_height - 2 * margin)%Q in
  let story :=
    if has_title then title_story title author usable_width usable_height
    else [] in
  '(story, _) ← page_loop body_base font_size page_width page_height
                  usable_width usable_height (story, 0) pages;
  Returns story.

(** [frame = Frame(margin, margin, page_width - 2 * margin,
    page_height - 2 * margin, id="normal")] *)
Definition book_frame (margin_inch page_width_inch page_height_inch : Q) : Frame :=
  let page_width := (page_width_inch * inch)%Q in
  let page_height := (page_height_inch * inch)%Q in
  let margin := (margin_inch * inch)%Q in
  mkFrame margin margin (page_width - 2 * margin) (page_height - 2 * margin).

(** [build_inner_book]; the result is the document written to
    [output_path]. *)
Definition build_inner_book (manuscript : Manuscript) (font_size : Z)
    (margin_inch page_width_inch page_height_inch : Q) : outcome (list Page) :=
  let pages := pages manuscript in
  let has_title := has_title manuscript in
  let page_width := (page_width_inch * inch)%Q in
  let page_height := (page_height_inch * inch)%Q in
  let frame := book_frame margin_inch page_width_inch page_height_inch in
  let '(page_to_image_index, _, _) :=
    plan has_title (length pages) (length image_paths) in
  story ← book_story manuscript font_size margin_inch page_width_inch
            page_height_inch;
  build (on_page page_to_image_index page_width page_height) frame story.

(** Every page of the book is laid out as one page: each run of the story,
    the title block, a fitted text with its spacer or an image, is placed on
    a single page of the frame. *)
Definition one_page_each (manuscript : Manuscript) (font_size : Z)
    (margin_inch page_width_inch page_height_inch : Q) : Prop :=
  forall story run,
    book_story manuscript font_size margin_inch page_width_inch page_height_inch
    = Returns story ->
    In run (runs story) -> run <> [] ->
    lay_out (book_frame margin_inch page_width_inch page_height_inch) run
    = Returns [run].

End Build.

End Assembler.

(** ** Geometry normaliser and merger: [_set_all_boxes],
       [merge_preface_and_book] *)

Module Merger.

Local Open Scope Q_scope.

(** A pypdf [RectangleObject]. *)
Record Box : Type := mkBox {
  lower_left : Q * Q;
  upper_right : Q * Q
}.

Definition box_width (b : Box) : Q := fst (upper_right b) - fst (lower_left b).
Definition box_height (b : Box) : Q := snd (upper_right b) - snd (lower_left b).

(** A pypdf [Transformation]: the matrix [(a, b, c, d, e, f)] that sends
    [(x, y)] to [(a x + c y + e, b x + d y + f)]. *)
Record Transformation : Type := mkTransformation {
  ctm_a : Q; ctm_b : Q; ctm_c : Q; ctm_d : Q; ctm_e : Q; ctm_f : Q
}.

(** [Transformation()] *)
Definition identity : Transformation := mkTransformation 1 0 0 1 0 0.

(** [t.scale(sx, sy)] *)
Definition scale (t : Transformation) (sx sy : Q) : Transformation :=
  mkTransformation (ctm_a t * sx) (ctm_b t * sy) (ctm_c t * sx) (ctm_d t * sy)
                   (ctm_e t * sx) (ctm_f t * sy).

(** [t.translate(tx, ty)] *)
Definition translate (t : Transformation) (tx ty : Q) : Transformation :=
  mkTransformation (ctm_a t) (ctm_b t) (ctm_c t) (ctm_d t)
                   (ctm_e t + tx) (ctm_f t + ty).

(** A pypdf [PageObject]: its five boxes, each of which the attribute lookup of
    [_set_all_boxes] finds, and the transformations added to its content
    stream, oldest first. *)
Record Page : Type := mkPage {
  mediabox : Box;
  cropbox : Box;
  trimbox : Box;
  bleedbox : Box;
  artbox : Box;
  transformations : list Transformation
}.

(** [box.lower_left = (0, 0); box.upper_right = (width, height)] *)
Definition set_box (width height : Q) (box : Box) : Box :=
  let box := mkBox (0, 0) (upper_right box) in
  mkBox (lower_left box) (width, height).

Definition _set_all_boxes (page : Page) (width height : Q) : Page :=
  {| mediabox := set_box width height (mediabox page);
     cropbox := set_box width height (cropbox page);
     trimbox := set_box width height (trimbox page);
     bleedbox := set_box width height (bleedbox page);
     artbox := set_box width height (artbox page);
     transformations := transformations page |}.

(** [page.add_transformation(transform)] *)
Definition add_transformation (page : Page) (t : Transformation) : Page :=
  {| mediabox := mediabox page;
     cropbox := cropbox page;
     trimbox := trimbox page;
     bleedbox := bleedbox page;
     artbox := artbox page;
     transformations := transformations page ++ [t] |}.

(** [a / b] on Python floats. *)
Definition py_div (a b : Q) : outcome Q :=
  if Qeq_bool b 0 then Raises ZeroDivisionError else Returns (a / b).

(** [min(a, b)] *)
Definition py_min (a b : Q) : Q := if Qlt_le_dec b a then b else a.

Definition TOL : Q := 1.

(** [abs(w - TARGET_W) <= TOL and abs(h - TARGET_H) <= TOL] *)
Definition within_tolerance (w h TARGET_W TARGET_H : Q) : bool :=
  Qle_bool (Qabs (w - TARGET_W)) TOL && Qle_bool (Qabs (h - TARGET_H)) TOL.

(** The transformation of the [else] branch:
    [Transformation().scale(scale, scale).translate(dx, dy)], in exact
    arithmetic. *)
Definition fit_transformation (w h TARGET_W TARGET_H : Q) : outcome Transformation :=
  sx ← py_div TARGET_W w;
  sy ← py_div TARGET_H h;
  let scale_ := py_min sx sy in
  let new_w := w * scale_ in
  let new_h := h * scale_ in
  let dx := (TARGET_W - new_w) / 2 in
  let dy := (TARGET_H - new_h) / 2 in
  Returns (translate (scale identity scale_ scale_) dx dy).

(** The body of [for page in preface_reader.pages]. *)
Definition normalize_preface_page (TARGET_W TARGET_H : Q) (page : Page)
  : outcome Page :=
  let w := box_width (mediabox page) in
  let h := box_height (mediabox page) in
  if within_tolerance w h TARGET_W TARGET_H then
    Returns (_set_all_boxes page TARGET_W TARGET_H)
  else
    transform ← fit_transformation w h TARGET_W TARGET_H;
    let page := _set_all_boxes page w h in
    let page := add_transformation page transform in
    Returns (_set_all_boxes page TARGET_W TARGET_H).

(** The rectangle every box is stamped with. *)
Definition target_box (width height : Q) : Box := mkBox (0, 0) (width, height).

(** All five boxes of [page] are the rectangle [(0, 0, width, height)]. *)
Definition stamped (width height : Q) (page : Page) : Prop :=
  mediabox page = target_box width height /\
  cropbox page = target_box width height /\
  trimbox page = target_box width height /\
  bleedbox page = target_box width height /\
  artbox page = target_box width height.

(** The body of [for page in inner_reader.pages]. *)
Definition normalize_inner_page (TARGET_W TARGET_H : Q) (page : Page) : Page :=
  _set_all_boxes page TARGET_W TARGET_H.

Section Files.

(** [os.path.exists] *)
Variable path_exists : string -> bool.

(** [PdfReader(path).pages], for a file that pypdf reads. *)
Variable PdfReader : string -> list Page.

(** [merge_preface_and_book] up to line 387; the result is the page list of
    the writer. Opening [final_output] and writing that list to it, which
    ends the function, is the step of [Cli.merge_preface_and_book]. *)
Definition merge_preface_and_book (preface_path inner_book_path : string)
    (page_width_inch page_height_inch : Q) : outcome (list Page) :=
  if negb (path_exists preface_path) then Raises FileNotFoundError
  else if negb (path_exists inner_book_path) then Raises FileNotFoundError
  else
    let TARGET_W := page_width_inch * 72 in
    let TARGET_H := page_height_inch * 72 in
    front ← mapM (normalize_preface_page TARGET_W TARGET_H)
              (PdfReader preface_path);
    let body := map (normalize_inner_page TARGET_W TARGET_H)
                    (PdfReader inner_book_path) in
    Returns (front ++ body).

End Files.

End Merger.

(** ** Command line run: [main] *)

Module Cli.

(** The parsed arguments of [main]. *)
Record Args : Type := mkArgs {
  manuscript : string;
  output : string;
  preface : string;
  images_dir : string;
  font_size : Z;
  margin_inch : Q;
  page_width_inch : Q;
  page_height_inch : Q
}.

(** The defaults of the argument parser. *)
Definition default_args (manuscript : string) : Args :=
  {| manuscript := manuscript;
     output := "children_book.pdf";
     preface := "rfh.pdf";
     images_dir := "images";
     font_size := 20;
     margin_inch := 1;
     page_width_inch := 8625 # 1000;
     page_height_inch := 875 # 100 |}.

(** [inner_book_path = "_inner_book_tmp.pdf"] *)
Definition inner_book_path : string := "_inner_book_tmp.pdf".

Section Run.

Variable image_mean : string -> outcome (float * float * float).
Variable wrap : string -> ParagraphStyle -> Q -> Q -> Q * Q.
Variable image_size : string -> outcome (Z * Z).

(** [json.load(open(manuscript_path))] with the lookups of ["title"],
    ["author"] and ["pages"]. *)
Variable load_manuscript : string -> outcome Assembler.Manuscript.

(** [glob.glob(pathname)] *)
Variable glob : string -> list string.

(** The pages on which [doc.build] places a run of flowables. *)
Variable lay_out
  : Assembler.Frame -> list Flowable -> outcome (list (list Flowable)).

(** The page object that [PdfReader] yields for a page that [doc.build]
    wrote. *)
Variable pdf_page : Assembler.Page -> Merger.Page.

(** The PDF files on disk, by path; different paths name different files. *)
Abbreviation Files := (gmap string (list Merger.Page)).

(** [build_inner_book(manuscript_path, output_path, images_dir, ...)] with its
    effect on the files: the document is written when [doc.build] ends. *)
Definition build_inner_book (manuscript_path output_path images_dir : string)
    (font_size : Z) (margin_inch page_width_inch page_height_inch : Q)
    (files : Files) : Files * outcome unit :=
  match load_manuscript manuscript_path with
  | Raises e => (files, Raises e)
  | Returns data =>
      let image_paths := Images.load_image_paths glob images_dir in
      match Assembler.build_inner_book image_mean wrap image_size image_paths
              lay_out data font_size margin_inch page_width_inch
              page_height_inch with
      | Raises e => (files, Raises e)
      | Returns doc => (<[output_path := map pdf_page doc]> files, Returns tt)
      end
  end.

(** [merge_preface_and_book(preface_path, inner_book_path, final_output, ...)]
    with its effect on the files. *)
Definition merge_preface_and_book (preface_path inner_book_path final_output : string)
    (page_width_inch page_height_inch : Q) (files : Files)
  : Files * outcome unit :=
  match Merger.merge_preface_and_book
          (fun path => bool_decide (is_Some (files !! path)))
          (fun path => default [] (files !! path))
          preface_path inner_book_path page_width_inch page_height_inch with
  | Raises e => (files, Raises e)
  | Returns out => (<[final_output := out]> files, Returns tt)
  end.

(** [main], after [parser.parse_args()]. *)
Definition main (args : Args) (files : Files) : Files * outcome unit :=
  let '(files, built) :=
    build_inner_book (manuscript args) inner_book_path (images_dir args)
      (font_size args) (margin_inch args) (page_width_inch args)
      (page_height_inch args) files in
  match built with
  | Raises e => (files, Raises e)
  | Returns _ =>
      let '(files, merged) :=
        merge_preface_and_book (preface args) inner_book_path (output args)
          (page_width_inch args) (page_height_inch args) files in
      match merged with
      | Raises e => (files, Raises e)
      | Returns _ => (delete inner_book_path files, Returns tt)
      end
  end.

End Run.

End Cli.

(** ** A small run: one image, a manuscript with a title *)

Module Example.

(** A paragraph measure: half a point of height for each character and point
    of font size. *)
Definition wrap (text : string) (style : ParagraphStyle) (w h : Q) : Q * Q :=
  (w, inject_Z (Z.of_nat (String.length text)) * inject_Z (fontSize style) / 2)%Q.

(** ["images/img1.png"] decodes to a dark image; any other path fails. *)
Definition image_mean (path : string) : outcome (float * float * float) :=
  if String.eqb path "images/img1.png" then Returns (10, 20, 30)%float
  else Raises (Exception "UnidentifiedImageError").

Definition image_size (path : string) : outcome (Z * Z) := Returns (100, 200)%Z.

Definition image_paths : list string := ["images/img1.png"].

(** The height a flowable takes in a frame, measured with [wrap]. *)
Definition height_in (frame : Assembler.Frame) (f : Flowable) : Q :=
  snd (Assembler.flowable_wrap wrap f
         (Assembler.frame_width frame - 12) (Assembler.frame_height frame - 12))%Q.

(** A frame for the measure above: a run whose heights add up to no more than
    the height of the frame less its padding stays on one page; a higher run
    is continued on a second page. *)
Definition lay_out (frame : Assembler.Frame) (run : list Flowable)
  : outcome (list (list Flowable)) :=
  let total := fold_right Qplus 0%Q (map (height_in frame) run) in
  if Qle_bool total (Assembler.frame_height frame - 12)%Q
  then Returns [run]
  else Returns [run; drop 1 run].

Definition manuscript : Assembler.Manuscript :=
  Assembler.mkManuscript (Some "T") (Some "A") ["Hello. World."].

(** The defaults of [build_inner_book]: [font_size=20], [margin_inch=1.0],
    [page_width_inch=8.625], [page_height_inch=8.75]. *)
Definition book : outcome (list Assembler.Page) :=
  Assembler.build_inner_book image_mean wrap image_size image_paths lay_out
    manuscript 20 1 (8625 # 1000) (875 # 100).

(** [count] copies of [s], one after the other. *)
Fixpoint copies (count : nat) (s : string) : string :=
  match count with
  | 0 => ""
  | S count' => s +:+ copies count' s
  end.

(** A manuscript without title whose one page holds 60 sentences; with a
    break of two lines after each they are more than a page takes at the
    smallest font size. *)
Definition long_manuscript : Assembler.Manuscript :=
  Assembler.mkManuscript None None [copies 60 "Hop. "].

Definition long_book : outcome (list Assembler.Page) :=
  Assembler.build_inner_book image_mean wrap image_size [] lay_out
    long_manuscript 20 1 (8625 # 1000) (875 # 100).

(** [s] without the prefix [prefix], when it starts with it. *)
Fixpoint without_prefix (prefix s : string) : option string :=
  match prefix, s with
  | "", _ => Some s
  | String a prefix', String b s' =>
      if Ascii.eqb a b then without_prefix prefix' s' else None
  | String _ _, "" => None
  end.

(** What [glob] finds in a directory [images] that holds the files [names],
    listed in that order: for the pattern ["images/*" ++ ext], the files whose
    name ends with [ext]. *)
Definition glob (names : list string) (pattern : string) : list string :=
  match without_prefix "images/*" pattern with
  | Some ext =>
      map (fun name => "images/" +:+ name)
          (List.filter (Images.ends_with ext) names)
  | None => []
  end.

(** A front-matter page twice as wide as the default target of 621 by 630
    points. *)
Definition wide_page : Merger.Page :=
  let box := Merger.mkBox (0, 0)%Q (1242, 630)%Q in
  Merger.mkPage box box box box box [].

(** A front-matter document and a one-page body, by path. *)
Definition PdfReader (path : string) : list Merger.Page :=
  if String.eqb path "rfh.pdf" then
    [wide_page;
     let box := Merger.mkBox (0, 0)%Q (6205 # 10, 631)%Q in
     Merger.mkPage box box box box box []]
  else
    [let box := Merger.mkBox (0, 0)%Q (621, 630)%Q in
     Merger.mkPage box box box box box []].

(** The page object read back for a page of the built body. *)
Definition pdf_page (page : Assembler.Page) : Merger.Page :=
  let box := Merger.mkBox (0, 0)%Q (621, 630)%Q in
  Merger.mkPage box box box box box [].

(** A disk that holds the front matter only. *)
Definition files : gmap string (list Merger.Page) :=
  {[ "rfh.pdf" := PdfReader "rfh.pdf" ]}.

(** [main] on [manuscript.json] with the default arguments, in a directory
    whose [images] folder holds [img1.png]. *)
Definition run (files : gmap string (list Merger.Page))
  : gmap string (list Merger.Page) * outcome unit :=
  Cli.main image_mean wrap image_size (fun _ => Returns manuscript)
    (glob ["img1.png"]) lay_out pdf_page (Cli.default_args "manuscript.json")
    files.

(** [merge_preface_and_book("rfh.pdf", "_inner_book_tmp.pdf", ...)] with the
    default page size. *)
Definition merged : outcome (list Merger.Page) :=
  Merger.merge_preface_and_book (fun _ => true) PdfReader
    "rfh.pdf" "_inner_book_tmp.pdf" (8625 # 1000) (875 # 100).

End Example.

(** * Properties *)

Lemma Returns_inj {A : Type} (a b : A) : Returns a = Returns b -> a = b.
Proof. intros H. injection H as ->. reflexivity. Qed.

Lemma triple_inj {A B C : Type} (a a' : A) (b b' : B) (c c' : C) :
  (a, b, c) = (a', b', c') -> a = a' /\ b = b' /\ c = c'.
Proof. intros H. injection H as -> -> ->. auto. Qed.

Section SamplerFacts.
Import Sampler.
Variable image_mean : string -> outcome (float * float * float).

Lemma white_neq_black : white <> black.
Proof.
  intros H. apply (f_equal (fun c => PrimFloat.is_zero (red c))) in H.
  vm_compute in H. discriminate H.
Qed.

Lemma text_color_of_mean path threshold r g b :
  image_mean path = Returns (r, g, b) ->
  text_color_for_image image_mean path threshold =
  Returns (if (luminance r g b <? threshold)%float then white else black).
Proof.
  intros Hm. unfold text_color_for_image. rewrite Hm. cbn.
  fold (luminance r g b).
  destruct (luminance r g b <? threshold)%float; reflexivity.
Qed.

(** C6: the text colour is white exactly when the luminance
    [(0.299 R + 0.587 G + 0.114 B) / 255] of the mean colour, computed in
    binary64, is below 0.5, and black otherwise. A pure black image gives
    white text, a pure white image black text and a luminance of exactly 0.5
    black text; of the pure colours, red, blue and magenta are dark and
    green, yellow and cyan are light. *)
Theorem text_color_for_image_threshold path r g b :
  image_mean path = Returns (r, g, b) ->
  let lum := ((0.299 * r + 0.587 * g + 0.114 * b) / 255)%float in
  let chosen := text_color_for_image image_mean path default_threshold in
  (chosen = Returns white <-> (lum <? 0.5)%float = true) /\
  (chosen = Returns black <-> (lum <? 0.5)%float = false) /\
  ((r, g, b) = (0, 0, 0)%float -> chosen = Returns white) /\
  ((r, g, b) = (255, 255, 255)%float -> chosen = Returns black) /\
  (lum = 0.5%float -> chosen = Returns black) /\
  ((r, g, b) = (127.5, 127.5, 127.5)%float ->
   lum = 0.5%float /\ chosen = Returns black) /\
  ((r, g, b) = (255, 0, 0)%float -> lum = 0.299%float /\ chosen = Returns white) /\
  ((r, g, b) = (0, 255, 0)%float -> lum = 0.587%float /\ chosen = Returns black) /\
  ((r, g, b) = (0, 0, 255)%float -> lum = 0.114%float /\ chosen = Returns white) /\
  ((r, g, b) = (255, 255, 0)%float -> chosen = Returns black) /\
  ((r, g, b) = (255, 0, 255)%float -> chosen = Returns white) /\
  ((r, g, b) = (0, 255, 255)%float -> chosen = Returns black).
Proof.
  intros Hm lum chosen.
  assert (Hc : chosen =
               Returns (if (lum <? 0.5)%float then white else black))
    by (apply text_color_of_mean; exact Hm).
  rewrite Hc.
  split; [| split; [| split; [| split; [| split]]]].
  - split.
    + destruct (lum <? 0.5)%float; [reflexivity |].
      intros H. apply Returns_inj in H. symmetry in H.
      destruct (white_neq_black H).
    + intros ->. reflexivity.
  - split.
    + destruct (lum <? 0.5)%float; [| reflexivity].
      intros H. apply Returns_inj in H. destruct (white_neq_black H).
    + intros ->. reflexivity.
  - intros H. apply triple_inj in H as (-> & -> & ->). reflexivity.
  - intros H. apply triple_inj in H as (-> & -> & ->). reflexivity.
  - intros ->. reflexivity.
  - repeat apply conj; intros H; apply triple_inj in H as (-> & -> & ->);
      try apply conj; reflexivity.
Qed.

End SamplerFacts.

Lemma text_color_for_image_threshold_witness :
  let mean := fun _ : string => Returns (200, 30, 90)%float in
  ((0.299 * 200 + 0.587 * 30 + 0.114 * 90) / 255 <? 0.5)%float = true /\
  Sampler.text_color_for_image mean "images/red.png" Sampler.default_threshold
  = Returns Sampler.white.
Proof.
  intros mean. split; [reflexivity |].
  destruct (text_color_for_image_threshold mean "images/red.png"
              200 30 90 eq_refl)%float as ([_ Hwhite] & _).
  apply Hwhite. reflexivity.
Defined.

(** ** The text fitter *)

Section FitterFacts.
Import Fitter.
Variable wrap : string -> ParagraphStyle -> Q -> Q -> Q * Q.
Variable html_text : string.
Variable base_style : ParagraphStyle.
Variables max_width max_height : Q.
Variable min_font_size : Z.

Abbreviation loop := (fit_loop wrap html_text base_style max_width max_height min_font_size).
Abbreviation para_at size := (Paragraph html_text (sized_style base_style size)).
Abbreviation fits := (Fitter.fits wrap html_text base_style max_width max_height).

Lemma fit_loop_unfold size last_para :
  loop size last_para =
  if decide (min_font_size <= size)%Z then
    if Qle_bool (snd (wrap html_text (sized_style base_style size)
                        max_width max_height)) max_height
    then (Some (para_at size), size)
    else loop (size - 1)%Z (Some (para_at size))
  else (last_para, min_font_size).
Proof.
  rewrite fit_loop_equation_1.
  destruct (decide (min_font_size <= size)%Z); reflexivity.
Qed.

(** What the loop returns when entered with [size], by induction on the number
    of sizes left to try. *)
Lemma fit_loop_spec (n : nat) : forall size last_para,
  Z.to_nat (size - min_font_size + 1) = n ->
  (min_font_size <= size)%Z ->
  let '(para, chosen) := loop size last_para in
  (min_font_size <= chosen <= size)%Z /\
  para = Some (para_at chosen) /\
  ((fits chosen /\ forall s, (chosen < s <= size)%Z -> ~ fits s) \/
   (chosen = min_font_size /\
    forall s, (min_font_size <= s <= size)%Z -> ~ fits s)).
Proof.
  induction n as [n IH] using lt_wf_ind. intros size last_para Hn Hle.
  rewrite fit_loop_unfold. destruct (decide (min_font_size <= size)%Z); [| lia].
  destruct (Qle_bool _ max_height) eqn:Hfit.
  - split; [lia |]. split; [reflexivity |]. left. split.
    + apply Qle_bool_iff. exact Hfit.
    + intros s Hs. lia.
  - assert (Hno : ~ fits size).
    { intros Hf. apply Qle_bool_iff in Hf. congruence. }
    destruct (decide (min_font_size <= size - 1)%Z) as [Hmore | Hlast].
    + specialize (IH (Z.to_nat (size - 1 - min_font_size + 1)) ltac:(lia)
                     (size - 1)%Z (Some (para_at size)) eq_refl Hmore).
      destruct (loop (size - 1)%Z (Some (para_at size))) as [para chosen].
      destruct IH as (Hrange & Hpara & Hcases).
      split; [lia |]. split; [exact Hpara |].
      destruct Hcases as [[Hf Hlarger] | [Hmin Hnone]].
      * left. split; [exact Hf |]. intros s Hs.
        destruct (decide (s = size)) as [-> | Hne]; [exact Hno |].
        apply Hlarger. lia.
      * right. split; [exact Hmin |]. intros s Hs.
        destruct (decide (s = size)) as [-> | Hne]; [exact Hno |].
        apply Hnone. lia.
    + rewrite fit_loop_unfold.
      destruct (decide (min_font_size <= size - 1)%Z); [lia |].
      assert (size = min_font_size) as -> by lia.
      split; [lia |]. split; [reflexivity |]. right. split; [reflexivity |].
      intros s Hs. assert (s = min_font_size) as -> by lia. exact Hno.
Qed.

Lemma fit_loop_not_entered size last_para :
  (size < min_font_size)%Z -> loop size last_para = (last_para, min_font_size).
Proof.
  intros Hlt. rewrite fit_loop_unfold.
  destruct (decide (min_font_size <= size)%Z); [lia | reflexivity].
Qed.

(** C5: when [min_font_size <= base_font_size] the returned size lies
    between the two; it is the largest size of that range at which the
    paragraph fits, or [min_font_size] when it fits at none; and it is
    [base_font_size] when the paragraph fits there. *)
Theorem create_fitting_paragraph_size (base_font_size : Z) :
  (min_font_size <= base_font_size)%Z ->
  let chosen :=
    snd (create_fitting_paragraph wrap html_text base_style max_width
           max_height min_font_size base_font_size) in
  (min_font_size <= chosen <= base_font_size)%Z /\
  ((fits chosen /\ forall s, (chosen < s <= base_font_size)%Z -> ~ fits s) \/
   (chosen = min_font_size /\
    forall s, (min_font_size <= s <= base_font_size)%Z -> ~ fits s)) /\
  (fits base_font_size -> chosen = base_font_size).
Proof.
  intros Hle chosen. subst chosen. unfold create_fitting_paragraph.
  pose proof (fit_loop_spec _ base_font_size None eq_refl Hle) as Hspec.
  destruct (loop base_font_size None) as [para chosen].
  destruct Hspec as (Hrange & _ & Hcases). cbn [snd].
  split; [exact Hrange |]. split; [exact Hcases |].
  intros Hbase. destruct Hcases as [[_ Hlarger] | [_ Hnone]].
  - destruct (decide (chosen = base_font_size)) as [-> | Hne]; [reflexivity |].
    destruct (Hlarger base_font_size ltac:(lia) Hbase).
  - destruct (Hnone base_font_size ltac:(lia) Hbase).
Qed.

(** The paragraph object is [None] exactly when the loop is never entered. *)
Lemma create_fitting_paragraph_None (base_font_size : Z) :
  fst (create_fitting_paragraph wrap html_text base_style max_width
         max_height min_font_size base_font_size) = None
  <-> (base_font_size < min_font_size)%Z.
Proof.
  unfold create_fitting_paragraph. split.
  - intros Hnone.
    destruct (decide (min_font_size <= base_font_size)%Z) as [Hle | Hgt]; [| lia].
    pose proof (fit_loop_spec _ base_font_size None eq_refl Hle) as Hspec.
    destruct (loop base_font_size None) as [para chosen].
    destruct Hspec as (_ & Hpara & _). cbn [fst] in Hnone. congruence.
  - intros Hlt. rewrite fit_loop_not_entered by exact Hlt. reflexivity.
Qed.

End FitterFacts.

(** ** The assembler *)

Lemma bind_Returns {A B : Type} (a : A) (f : A -> outcome B) :
  (Returns a ≫= f) = f a.
Proof. reflexivity. Qed.

Lemma concat_singletons {A : Type} (l : list A) :
  concat (map (fun x => [x]) l) = l.
Proof. induction l as [| x l IH]; simpl; [| rewrite IH]; reflexivity. Qed.

Section AssemblerFacts.
Import Assembler.
Variable image_mean : string -> outcome (float * float * float).
Variable wrap : string -> ParagraphStyle -> Q -> Q -> Q * Q.
Variable image_size : string -> outcome (Z * Z).
Variable image_paths : list string.
Variable lay_out : Frame -> list Flowable -> outcome (list (list Flowable)).

Abbreviation no_break := (Forall (fun f : Flowable => f <> PageBreak)).
Abbreviation close := (fun content : list Flowable => content ++ [PageBreak]).

(** The page plan: manuscript page [i] is numbered [start + 2 * i], and it is
    paired with image [i] when there is one. *)
Lemma plan_spec (titled : bool) (n_pages n_images : nat) :
  let start := if titled then 2 else 1 in
  exists page_to_image_index : gmap nat nat,
    plan titled n_pages n_images
    = (page_to_image_index, start + 2 * n_pages, n_pages) /\
    forall page_num img_idx,
      page_to_image_index !! page_num = Some img_idx
      <-> img_idx < n_pages /\ img_idx < n_images /\
          page_num = start + 2 * img_idx.
Proof.
  intros start. unfold plan.
  change (if titled then 1 + 1 else 1) with start.
  induction n_pages as [| n IH].
  - exists (∅ : gmap nat nat). split; [simpl; f_equal; f_equal; lia |].
    intros page_num img_idx. rewrite lookup_empty. split; [discriminate | lia].
  - destruct IH as (m & Hiter & Hm). rewrite Nat.iter_succ, Hiter.
    unfold plan_step.
    destruct (Nat.ltb n n_images) eqn:Hlt;
      [apply Nat.ltb_lt in Hlt | apply Nat.ltb_ge in Hlt].
    + exists (<[start + 2 * n := n]> m).
      split; [f_equal; [f_equal |]; lia |].
      intros page_num img_idx. rewrite lookup_insert.
      destruct (decide (start + 2 * n = page_num)) as [<- | Hne].
      * split; [intros [= <-]; lia | intros (_ & _ & Heq); f_equal; lia].
      * rewrite Hm. split; [lia |]. intros (Hi & Him & ->).
        split; [| auto]. assert (img_idx <> n) by (intros ->; congruence). lia.
    + exists m. split; [f_equal; [f_equal |]; lia |].
      intros page_num img_idx. rewrite Hm. lia.
Qed.

Lemma runs_from_segment cur content rest :
  no_break content ->
  runs_from cur (content ++ PageBreak :: rest)
  = (rev cur ++ content) :: runs_from [] rest.
Proof.
  revert cur. induction content as [| f content IH]; intros cur Hnb; simpl.
  - rewrite app_nil_r. reflexivity.
  - inversion Hnb as [| ? ? Hf Hrest]; subst.
    destruct f; try congruence; rewrite IH by assumption; simpl;
      rewrite <- app_assoc; reflexivity.
Qed.

(** The runs of a story made of closed segments are those segments. *)
Lemma runs_closed (segs : list (list Flowable)) :
  Forall no_break segs -> runs (concat (map close segs)) = segs.
Proof.
  unfold runs. induction segs as [| c segs IH]; intros Hnb; simpl.
  - reflexivity.
  - inversion Hnb as [| ? ? Hc Hrest]; subst.
    rewrite <- app_assoc. simpl.
    rewrite runs_from_segment by assumption. simpl.
    rewrite IH by assumption. reflexivity.
Qed.

(** Runs that take one page each are the pages of the document. *)
Lemma mapM_lay_out_one_page frame (segs : list (list Flowable)) :
  (forall run, In run segs -> run <> [] -> lay_out frame run = Returns [run]) ->
  mapM (lay_out_run lay_out frame) segs = Returns (map (fun run => [run]) segs).
Proof.
  induction segs as [| run segs IH]; intros Hfit; [reflexivity |].
  assert (Hrun : lay_out_run lay_out frame run = Returns [run]).
  { destruct run as [| f run']; [reflexivity |]. unfold lay_out_run.
    apply Hfit; [left; reflexivity | discriminate]. }
  cbn [mapM map]. rewrite Hrun, bind_Returns.
  rewrite IH by (intros r Hr; apply Hfit; right; exact Hr).
  reflexivity.
Qed.

Lemma build_one_page_each on_page frame (segs : list (list Flowable)) :
  Forall no_break segs ->
  (forall run, In run segs -> run <> [] -> lay_out frame run = Returns [run]) ->
  build lay_out on_page frame (concat (map close segs))
  = build_from on_page 1 segs.
Proof.
  intros Hnb Hfit. unfold build. rewrite runs_closed by exact Hnb.
  rewrite mapM_lay_out_one_page by exact Hfit.
  rewrite bind_Returns, concat_singletons. reflexivity.
Qed.

Lemma text_color_for_image_returns path threshold :
  exists c, Sampler.text_color_for_image image_mean path threshold = Returns c.
Proof.
  unfold Sampler.text_color_for_image.
  destruct (image_mean path) as [[[r g] b] | e]; cbn.
  - destruct (PrimFloat.ltb _ threshold); eauto.
  - eauto.
Qed.

Lemma color_from_image_returns path :
  exists c, Sampler.color_from_image image_mean path = Returns c.
Proof.
  unfold Sampler.color_from_image.
  destruct (image_mean path) as [[[r g] b] | e]; cbn; eauto.
Qed.

Lemma on_page_returns plan page_width page_height page_num :
  exists ops,
    on_page image_mean image_paths plan page_width page_height page_num
    = Returns ops.
Proof.
  unfold on_page. destruct (plan !! page_num) as [img_idx |]; [| eauto].
  destruct (Nat.ltb img_idx (length image_paths)) eqn:Hlt; [| eauto].
  apply Nat.ltb_lt in Hlt. apply lookup_lt_is_Some in Hlt as [path Hpath].
  rewrite Hpath. destruct (color_from_image_returns path) as [c ->]. cbn.
  destruct c; eauto.
Qed.

(** One turn of the page loop appends a closed text page and a closed partner
    page. *)
Lemma page_step_ok body_base font_size pw ph uw uh story idx page_text :
  (5 <= font_size)%Z ->
  (forall path, image_paths !! idx = Some path ->
                exists sz, image_size path = Returns sz) ->
  exists sp sty partner,
    page_step image_mean wrap image_size image_paths body_base font_size
      pw ph uw uh (story, idx) page_text
    = Returns (story ++ close [Spacer 1 sp; Paragraph (Text.html_text page_text) sty]
                     ++ close partner,
               if Nat.ltb idx (length image_paths) then idx + 1 else idx) /\
    match image_paths !! idx with
    | Some path => exists imgw imgh, partner = [FullPageImage path pw ph imgw imgh]
    | None => partner = []
    end.
Proof.
  intros Hsize Hread. unfold page_step.
  pose proof (fun sty => fit_loop_spec wrap (Text.html_text page_text) sty uw uh 5
                _ font_size None eq_refl Hsize) as Hfit.
  unfold Fitter.create_fitting_paragraph.
  destruct (Nat.ltb idx (length image_paths)) eqn:Hlt.
  - apply Nat.ltb_lt in Hlt. apply lookup_lt_is_Some in Hlt as [path Hpath].
    rewrite Hpath.
    destruct (text_color_for_image_returns path Sampler.default_threshold)
      as [c ->].
    cbn. set (page_style := mkStyle "BodyPage" _ _ _ _ c).
    specialize (Hfit page_style).
    destruct (Fitter.fit_loop _ _ _ _ _ _ font_size None) as [para chosen].
    destruct Hfit as (_ & -> & _).
    destruct (Hread path Hpath) as [[imgw imgh] Hsz].
    unfold new_FullPageImage. rewrite Hsz. cbn.
    eexists _, _, [FullPageImage path pw ph imgw imgh]. split.
    + rewrite <- !app_assoc. reflexivity.
    + eauto.
  - apply Nat.ltb_ge in Hlt. rewrite (lookup_ge_None_2 _ _ Hlt).
    cbn. set (page_style := mkStyle "BodyPage" _ _ _ _ Sampler.black).
    specialize (Hfit page_style).
    destruct (Fitter.fit_loop _ _ _ _ _ _ font_size None) as [para chosen].
    destruct Hfit as (_ & -> & _).
    eexists _, _, []. split.
    + rewrite <- !app_assoc. reflexivity.
    + reflexivity.
Qed.

Lemma build_from_ok (on_page : nat -> outcome (list CanvasOp)) :
  (forall n, exists ops, on_page n = Returns ops) ->
  forall pgs n,
  exists doc,
    build_from on_page n pgs = Returns doc /\
    map content doc = pgs /\
    forall i pg, doc !! i = Some pg -> on_page (n + i) = Returns (background pg).
Proof.
  intros Hon. induction pgs as [| flowables rest IH]; intros n; simpl.
  - exists []. split; [reflexivity |]. split; [reflexivity |].
    intros i pg Hi. rewrite lookup_nil in Hi. discriminate.
  - destruct (Hon n) as [ops Hops]. rewrite Hops. cbn.
    destruct (IH (S n)) as (built & -> & Hcontent & Hback). cbn.
    exists (mkPage ops flowables :: built). split; [reflexivity |]. split.
    + simpl. rewrite Hcontent. reflexivity.
    + intros [| i] pg Hi; simpl in Hi.
      * injection Hi as <-. rewrite Nat.add_0_r. exact Hops.
      * rewrite <- Nat.add_succ_comm. apply Hback. exact Hi.
Qed.

Lemma page_loop_cons body_base font_size pw ph uw uh st page_text rest :
  page_loop image_mean wrap image_size image_paths body_base font_size
    pw ph uw uh st (page_text :: rest)
  = match page_step image_mean wrap image_size image_paths body_base font_size
            pw ph uw uh st page_text with
    | Returns st' =>
        page_loop image_mean wrap image_size image_paths body_base font_size
          pw ph uw uh st' rest
    | Raises e => Raises e
    end.
Proof. reflexivity. Qed.

Lemma page_loop_ok body_base font_size pw ph uw uh :
  (5 <= font_size)%Z ->
  forall texts story k,
  (forall i path, i < length texts -> image_paths !! (k + i) = Some path ->
                  exists sz, image_size path = Returns sz) ->
  exists segs,
    page_loop image_mean wrap image_size image_paths body_base font_size
      pw ph uw uh (story, k `min` length image_paths) texts
    = Returns (story ++ concat (map close segs),
               (k + length texts) `min` length image_paths) /\
    Forall no_break segs /\
    length segs = 2 * length texts /\
    forall i page_text, texts !! i = Some page_text ->
      (exists sp sty,
         segs !! (2 * i) = Some [Spacer 1 sp; Paragraph (Text.html_text page_text) sty]) /\
      (exists partner,
         segs !! (2 * i + 1) = Some partner /\
         match image_paths !! (k + i) with
         | Some path => exists imgw imgh, partner = [FullPageImage path pw ph imgw imgh]
         | None => partner = []
         end).
Proof.
  intros Hsize. induction texts as [| page_text rest IH]; intros story k Hread.
  - exists []. simpl. rewrite app_nil_r, Nat.add_0_r.
    split; [reflexivity |]. split; [constructor |]. split; [reflexivity |].
    intros i t Hi. rewrite lookup_nil in Hi. discriminate.
  - rewrite page_loop_cons.
    assert (Hidx : image_paths !! (k `min` length image_paths) = image_paths !! k).
    { destruct (Nat.le_gt_cases (length image_paths) k) as [Hge | Hlt].
      - rewrite Nat.min_r by exact Hge.
        rewrite !lookup_ge_None_2 by lia. reflexivity.
      - rewrite Nat.min_l by lia. reflexivity. }
    destruct (page_step_ok body_base font_size pw ph uw uh story
                (k `min` length image_paths) page_text Hsize)
      as (sp & sty & partner & Hstep & Hpartner).
    { intros path Hpath. rewrite Hidx in Hpath.
      apply (Hread 0 path); [simpl; lia | rewrite Nat.add_0_r; exact Hpath]. }
    rewrite Hstep.
    assert (Hnext : (if Nat.ltb (k `min` length image_paths) (length image_paths)
                     then k `min` length image_paths + 1
                     else k `min` length image_paths)
                    = S k `min` length image_paths).
    { destruct (Nat.ltb _ _) eqn:Hlt;
        [apply Nat.ltb_lt in Hlt | apply Nat.ltb_ge in Hlt]; lia. }
    rewrite Hnext.
    destruct (IH (story ++ close [Spacer 1 sp; Paragraph (Text.html_text page_text) sty]
                        ++ close partner) (S k)) as (segs & Hloop & Hnb & Hlen & Hsegs).
    { intros i path Hi Hpath. apply (Hread (S i) path); [simpl; lia |].
      rewrite <- Nat.add_succ_comm. exact Hpath. }
    rewrite Hloop.
    exists ([Spacer 1 sp; Paragraph (Text.html_text page_text) sty] :: partner :: segs).
    split; [| split; [| split]].
    + replace (k + length (page_text :: rest)) with (S k + length rest)
        by (simpl; lia).
      cbn [map concat]. rewrite <- !app_assoc. reflexivity.
    + rewrite Hidx in Hpartner.
      constructor; [repeat constructor; discriminate |].
      constructor; [| exact Hnb].
      destruct (image_paths !! k) as [path |].
      * destruct Hpartner as (imgw & imgh & ->). repeat constructor. discriminate.
      * rewrite Hpartner. constructor.
    + simpl. rewrite Hlen. lia.
    + intros [| i] t Hi; simpl in Hi.
      * injection Hi as <-. simpl. split; [eauto |].
        exists partner. split; [reflexivity |].
        rewrite Nat.add_0_r, <- Hidx. exact Hpartner.
      * destruct (Hsegs i t Hi) as (Htext & Hpart).
        replace (2 * S i) with (S (S (2 * i))) by lia.
        replace (S (S (2 * i)) + 1) with (S (S (2 * i + 1))) by lia.
        replace (k + S i) with (S k + i) by lia.
        split; [exact Htext | exact Hpart].
Qed.

Lemma title_story_closed title author uw uh :
  exists sp rest,
    title_story wrap title author uw uh
    = close (Spacer 1 sp :: Paragraph title title_style :: rest) /\
    no_break (Spacer 1 sp :: Paragraph title title_style :: rest).
Proof.
  unfold title_story. destruct (String.eqb author "").
  - eexists _, []. split; [reflexivity |]. repeat constructor; discriminate.
  - eexists _, [_; _]. split; [reflexivity |]. repeat constructor; discriminate.
Qed.

(** The story of the book: the title page, if any, then for each manuscript
    page its text page and its partner page, each closed by a page break. *)
Lemma book_story_structure manuscript font_size margin_inch
    page_width_inch page_height_inch :
  (5 <= font_size)%Z ->
  (forall i path, i < length (pages manuscript) ->
                  image_paths !! i = Some path ->
                  exists sz, image_size path = Returns sz) ->
  exists title_pages body,
    book_story image_mean wrap image_size image_paths manuscript
      font_size margin_inch page_width_inch page_height_inch
    = Returns (concat (map close (title_pages ++ body))) /\
    Forall no_break (title_pages ++ body) /\
    (if has_title manuscript
     then exists sp rest,
            title_pages = [Spacer 1 sp
                           :: Paragraph (default "" (title manuscript)) title_style
                           :: rest]
     else title_pages = []) /\
    length body = 2 * length (pages manuscript) /\
    forall i page_text, pages manuscript !! i = Some page_text ->
      (exists sp sty,
         body !! (2 * i)
         = Some [Spacer 1 sp; Paragraph (Text.html_text page_text) sty]) /\
      (exists partner,
         body !! (2 * i + 1) = Some partner /\
         match image_paths !! i with
         | Some path =>
             exists imgw imgh,
               partner = [FullPageImage path (page_width_inch * inch)
                            (page_height_inch * inch) imgw imgh]
         | None => partner = []
         end).
Proof.
  intros Hsize Hread. unfold book_story.
  set (pw := (page_width_inch * inch)%Q). set (ph := (page_height_inch * inch)%Q).
  set (uw := (pw - 2 * (margin_inch * inch))%Q).
  set (uh := (ph - 2 * (margin_inch * inch))%Q).
  set (body_base := mkStyle "BodyBase" _ _ _ _ _).
  set (story := if has_title manuscript then _ else []).
  assert (Hstory : exists title_pages,
             story = concat (map close title_pages) /\ Forall no_break title_pages /\
             (if has_title manuscript
              then exists sp rest,
                     title_pages = [Spacer 1 sp
                                    :: Paragraph (default "" (title manuscript))
                                         title_style
                                    :: rest]
              else title_pages = [])).
  { subst story. destruct (has_title manuscript).
    - destruct (title_story_closed (default "" (title manuscript))
                  (default "" (author manuscript)) uw uh)
        as (sp & rest & Heq & Hnb).
      exists [Spacer 1 sp :: Paragraph (default "" (title manuscript)) title_style
                :: rest].
      split; [rewrite Heq; simpl; rewrite app_nil_r; reflexivity |].
      split; [constructor; [exact Hnb | constructor] | eauto].
    - exists []. split; [reflexivity |]. split; [constructor | reflexivity]. }
  destruct Hstory as (title_pages & Hstory & Hnb_title & Htitle).
  destruct (page_loop_ok body_base font_size pw ph uw uh Hsize
              (pages manuscript) story 0 Hread)
    as (segs & Hloop & Hnb & Hlen & Hsegs).
  change (0 `min` length image_paths) with 0 in Hloop.
  rewrite Hloop, bind_Returns.
  exists title_pages, segs.
  split; [rewrite Hstory, map_app, concat_app; reflexivity |].
  split; [apply Forall_app; split; assumption |].
  split; [exact Htitle | split; [exact Hlen | exact Hsegs]].
Qed.

(** The document that [build_inner_book] writes when every run of its story
    takes one page: the title page, if any, then for each manuscript page its
    text page and its partner page. *)
Lemma build_inner_book_structure manuscript font_size margin_inch
    page_width_inch page_height_inch :
  (5 <= font_size)%Z ->
  (forall i path, i < length (pages manuscript) ->
                  image_paths !! i = Some path ->
                  exists sz, image_size path = Returns sz) ->
  one_page_each image_mean wrap image_size image_paths lay_out manuscript
    font_size margin_inch page_width_inch page_height_inch ->
  exists doc title_pages body,
    build_inner_book image_mean wrap image_size image_paths lay_out manuscript
      font_size margin_inch page_width_inch page_height_inch = Returns doc /\
    map content doc = title_pages ++ body /\
    (if has_title manuscript
     then exists sp rest,
            title_pages = [Spacer 1 sp
                           :: Paragraph (default "" (title manuscript)) title_style
                           :: rest]
     else title_pages = []) /\
    length body = 2 * length (pages manuscript) /\
    forall i page_text, pages manuscript !! i = Some page_text ->
      (exists sp sty,
         body !! (2 * i)
         = Some [Spacer 1 sp; Paragraph (Text.html_text page_text) sty]) /\
      (exists partner,
         body !! (2 * i + 1) = Some partner /\
         match image_paths !! i with
         | Some path =>
             exists imgw imgh,
               partner = [FullPageImage path (page_width_inch * inch)
                            (page_height_inch * inch) imgw imgh]
         | None => partner = []
         end).
Proof.
  intros Hsize Hread Hfit.
  destruct (book_story_structure manuscript font_size margin_inch
              page_width_inch page_height_inch Hsize Hread)
    as (title_pages & body & Hstory & Hnb & Htitle & Hlen & Hbody).
  unfold build_inner_book.
  destruct (plan _ _ _) as [[page_to_image_index current_page] img_index].
  rewrite Hstory, bind_Returns.
  rewrite build_one_page_each; [| exact Hnb |].
  2:{ intros run Hin Hne. apply (Hfit _ run Hstory); [| exact Hne].
      rewrite runs_closed by exact Hnb. exact Hin. }
  destruct (build_from_ok
              (on_page image_mean image_paths page_to_image_index
                 (page_width_inch * inch) (page_height_inch * inch))
              (on_page_returns page_to_image_index _ _)
              (title_pages ++ body) 1)
    as (doc & Hbuild & Hcontent & _).
  rewrite Hbuild.
  exists doc, title_pages, body. split; [reflexivity |].
  split; [exact Hcontent |].
  split; [exact Htitle | split; [exact Hlen | exact Hbody]].
Qed.

(** C1, as the code has it: for a manuscript of [N >= 1] pages, when
    reportlab places every run of the story, the title block, each fitted
    text with its spacer and each image, on one page, the body document has
    [(1 if title else 0) + 2 * N] pages: the title page, if any, then for
    each manuscript page in order its text page and its image-or-blank
    partner page. The texts are taken to hold no markup of their own, which
    reportlab may refuse to parse. *)
Theorem build_inner_book_pages manuscript font_size margin_inch
    page_width_inch page_height_inch :
  pages manuscript <> [] ->
  (5 <= font_size)%Z ->
  (forall i path, i < length (pages manuscript) ->
                  image_paths !! i = Some path ->
                  exists sz, image_size path = Returns sz) ->
  markup_free manuscript ->
  one_page_each image_mean wrap image_size image_paths lay_out manuscript
    font_size margin_inch page_width_inch page_height_inch ->
  exists doc,
    build_inner_book image_mean wrap image_size image_paths lay_out manuscript
      font_size margin_inch page_width_inch page_height_inch = Returns doc /\
    length doc
    = (if has_title manuscript then 1 else 0) + 2 * length (pages manuscript) /\
    exists title_pages body,
      map content doc = title_pages ++ body /\
      length title_pages = (if has_title manuscript then 1 else 0) /\
      (has_title manuscript = true ->
       exists sp rest,
         title_pages = [Spacer 1 sp
                        :: Paragraph (default "" (title manuscript)) title_style
                        :: rest]) /\
      forall i page_text, pages manuscript !! i = Some page_text ->
        (exists sp sty,
           body !! (2 * i)
           = Some [Spacer 1 sp; Paragraph (Text.html_text page_text) sty]) /\
        (exists partner,
           body !! (2 * i + 1) = Some partner /\
           match image_paths !! i with
           | Some path =>
               exists imgw imgh,
                 partner = [FullPageImage path (page_width_inch * inch)
                              (page_height_inch * inch) imgw imgh]
           | None => partner = []
           end).
Proof.
  intros _ Hsize Hread _ Hfit.
  destruct (build_inner_book_structure manuscript font_size margin_inch
              page_width_inch page_height_inch Hsize Hread Hfit)
    as (doc & title_pages & body & Hdoc & Hcontent & Htitle & Hlen & Hbody).
  assert (Htl : length title_pages = if has_title manuscript then 1 else 0).
  { destruct (has_title manuscript).
    - destruct Htitle as (sp & rest & ->). reflexivity.
    - rewrite Htitle. reflexivity. }
  exists doc. split; [exact Hdoc |]. split.
  - rewrite <- (length_map content doc), Hcontent, length_app, Htl, Hlen.
    reflexivity.
  - exists title_pages, body. split; [exact Hcontent |]. split; [exact Htl |].
    split; [| exact Hbody].
    intros Ht. rewrite Ht in Htitle. exact Htitle.
Qed.

(** C2, as the code has it: for a manuscript of [N >= 1] pages, when
    reportlab places every run of the story on one page, the body document
    has [1 + 2 * N] pages with a title and [2 * N] without. The texts are
    taken to hold no markup of their own. *)
Theorem build_inner_book_page_count manuscript font_size margin_inch
    page_width_inch page_height_inch :
  pages manuscript <> [] ->
  (5 <= font_size)%Z ->
  (forall i path, i < length (pages manuscript) ->
                  image_paths !! i = Some path ->
                  exists sz, image_size path = Returns sz) ->
  markup_free manuscript ->
  one_page_each image_mean wrap image_size image_paths lay_out manuscript
    font_size margin_inch page_width_inch page_height_inch ->
  exists doc,
    build_inner_book image_mean wrap image_size image_paths lay_out manuscript
      font_size margin_inch page_width_inch page_height_inch = Returns doc /\
    (has_title manuscript = true ->
     length doc = 1 + 2 * length (pages manuscript)) /\
    (has_title manuscript = false ->
     length doc = 2 * length (pages manuscript)).
Proof.
  intros _ Hsize Hread _ Hfit.
  destruct (build_inner_book_structure manuscript font_size margin_inch
              page_width_inch page_height_inch Hsize Hread Hfit)
    as (doc & title_pages & body & Hdoc & Hcontent & Htitle & Hlen & _).
  exists doc. split; [exact Hdoc |].
  rewrite <- (length_map content doc), Hcontent, length_app, Hlen.
  split; intros Ht; rewrite Ht in Htitle.
  - destruct Htitle as (sp & rest & ->). reflexivity.
  - rewrite Htitle. reflexivity.
Qed.

(** With a base size below the floor of 5 the fitter hands back no paragraph
    and the page loop stops at [para.wrap]. *)
Lemma page_step_fails body_base font_size pw ph uw uh st page_text :
  (font_size < 5)%Z ->
  page_step image_mean wrap image_size image_paths body_base font_size
    pw ph uw uh st page_text = Raises AttributeError.
Proof.
  intros Hsmall. destruct st as [story idx]. unfold page_step.
  unfold Fitter.create_fitting_paragraph.
  destruct (Nat.ltb idx (length image_paths)) eqn:Hlt.
  - apply Nat.ltb_lt in Hlt. apply lookup_lt_is_Some in Hlt as [path Hpath].
    rewrite Hpath.
    destruct (text_color_for_image_returns path Sampler.default_threshold)
      as [c ->].
    cbn. rewrite fit_loop_not_entered by exact Hsmall. reflexivity.
  - cbn. rewrite fit_loop_not_entered by exact Hsmall. reflexivity.
Qed.

(** C10: the fitter returns no paragraph exactly when
    [min_font_size > base_font_size]; [build_inner_book], which fits with a
    floor of 5, fails on its first manuscript page when the base font size is
    below 5. *)
Theorem small_font_size_fails manuscript font_size margin_inch
    page_width_inch page_height_inch :
  (forall html_text base_style max_width max_height min_font_size base_font_size,
     fst (Fitter.create_fitting_paragraph wrap html_text base_style max_width
            max_height min_font_size base_font_size) = None
     <-> (min_font_size > base_font_size)%Z) /\
  ((font_size < 5)%Z ->
   pages manuscript <> [] ->
   build_inner_book image_mean wrap image_size image_paths lay_out manuscript
     font_size margin_inch page_width_inch page_height_inch
   = Raises AttributeError).
Proof.
  split.
  - intros html_text base_style max_width max_height min_font_size
           base_font_size.
    rewrite create_fitting_paragraph_None. lia.
  - intros Hsmall Hpages. unfold build_inner_book, book_story.
    destruct (plan _ _ _) as [[page_to_image_index current_page] img_index].
    destruct (pages manuscript) as [| page_text rest]; [congruence |].
    rewrite page_loop_cons, page_step_fails by exact Hsmall. reflexivity.
Qed.

End AssemblerFacts.

(** In the small run every run of the story fits its page. *)
Lemma example_one_page_each :
  Assembler.one_page_each Example.image_mean Example.wrap Example.image_size
    Example.image_paths Example.lay_out Example.manuscript
    20 1 (8625 # 1000) (875 # 100).
Proof.
  intros story run Hstory Hin Hne.
  vm_compute in Hstory. apply Returns_inj in Hstory. subst story.
  vm_compute in Hin.
  destruct Hin as [<- | [<- | [<- | []]]]; vm_compute; reflexivity.
Qed.

Lemma example_markup_free : Assembler.markup_free Example.manuscript.
Proof. split; [reflexivity |]. split; [reflexivity |]. repeat constructor. Qed.

Lemma build_inner_book_pages_witness :
  (5 <= 20)%Z /\
  exists doc,
    Example.book = Returns doc /\
    length doc = 1 + 2 * 1.
Proof.
  split; [lia |].
  destruct (build_inner_book_pages Example.image_mean Example.wrap
              Example.image_size Example.image_paths Example.lay_out
              Example.manuscript 20 1 (8625 # 1000) (875 # 100))
    as (doc & Hdoc & Hlen & _).
  - discriminate.
  - lia.
  - intros i path _ _. exists (100, 200)%Z. reflexivity.
  - exact example_markup_free.
  - exact example_one_page_each.
  - exists doc. split; [exact Hdoc | exact Hlen].
Defined.

(** C1 as stated fails: a text that does not fit its page at the smallest
    font size is kept and continued on further pages. The manuscript without
    title whose one page holds 60 sentences gives, with the default
    configuration and no image, a body of more than [0 + 2 * 1] pages. *)
Lemma overflowing_text_counterexample :
  Assembler.has_title Example.long_manuscript = false /\
  length (Assembler.pages Example.long_manuscript) = 1 /\
  exists doc,
    Example.long_book = Returns doc /\
    2 < length doc /\
    length doc <> 0 + 2 * 1.
Proof.
  split; [reflexivity |]. split; [reflexivity |].
  eexists. split; [vm_compute; reflexivity |].
  split; [simpl; lia | discriminate].
Qed.

(** C2 as stated fails: the manuscript [{title: "T", author: "A",
    pages: ["Hello. World."]}] with one image and the default configuration
    gives a body of 3 pages, not [2 + 2 * 1]. *)
Lemma page_count_with_title_counterexample :
  Assembler.has_title Example.manuscript = true /\
  exists doc,
    Example.book = Returns doc /\
    length doc = 3 /\
    length doc <> 2 + 2 * length (Assembler.pages Example.manuscript).
Proof.
  split; [reflexivity |].
  eexists. split; [vm_compute; reflexivity |].
  split; [reflexivity | discriminate].
Qed.

Lemma build_inner_book_page_count_witness :
  exists doc, Example.book = Returns doc /\ length doc = 3.
Proof.
  destruct (build_inner_book_page_count Example.image_mean Example.wrap
              Example.image_size Example.image_paths Example.lay_out
              Example.manuscript 20 1 (8625 # 1000) (875 # 100))
    as (doc & Hdoc & Hlen & _).
  - discriminate.
  - lia.
  - intros i path _ _. exists (100, 200)%Z. reflexivity.
  - exact example_markup_free.
  - exact example_one_page_each.
  - exists doc. split; [exact Hdoc | exact (Hlen eq_refl)].
Defined.

Lemma small_font_size_fails_witness :
  Assembler.build_inner_book Example.image_mean Example.wrap
    Example.image_size Example.image_paths Example.lay_out Example.manuscript
    4 1 (8625 # 1000) (875 # 100)
  = Raises AttributeError.
Proof.
  apply (small_font_size_fails Example.image_mean Example.wrap
           Example.image_size Example.image_paths Example.lay_out
           Example.manuscript 4 1 (8625 # 1000) (875 # 100)).
  - lia.
  - discriminate.
Defined.

(** ** Decoding errors *)

(** C7: when decoding the image raises, colour sampling does not: the
    background colour is [None], so the page callback paints nothing, and the
    text colour is black. *)
Theorem decode_error_is_absorbed
    (image_mean : string -> outcome (float * float * float))
    (path : string) (e : exn) (threshold : float) :
  image_mean path = Raises e ->
  Sampler.color_from_image image_mean path = Returns None /\
  Sampler.text_color_for_image image_mean path threshold
  = Returns Sampler.black /\
  forall (image_paths : list string) (page_to_image_index : gmap nat nat)
         (page_width page_height : Q) (page_num img_idx : nat),
    page_to_image_index !! page_num = Some img_idx ->
    image_paths !! img_idx = Some path ->
    Assembler.on_page image_mean image_paths page_to_image_index
      page_width page_height page_num = Returns [].
Proof.
  intros Hraise.
  assert (Hcolor : Sampler.color_from_image image_mean path = Returns None).
  { unfold Sampler.color_from_image. rewrite Hraise. reflexivity. }
  split; [exact Hcolor |]. split.
  - unfold Sampler.text_color_for_image. rewrite Hraise. reflexivity.
  - intros image_paths page_to_image_index page_width page_height page_num
           img_idx Hplan Hpath.
    unfold Assembler.on_page. rewrite Hplan.
    assert (Hlt : img_idx < length image_paths)
      by (apply lookup_lt_is_Some; eauto).
    apply Nat.ltb_lt in Hlt. rewrite Hlt, Hpath, Hcolor. reflexivity.
Qed.

Lemma decode_error_is_absorbed_witness :
  Example.image_mean "images/img2.png"
  = Raises (Exception "UnidentifiedImageError") /\
  Sampler.color_from_image Example.image_mean "images/img2.png" = Returns None /\
  Sampler.text_color_for_image Example.image_mean "images/img2.png"
    Sampler.default_threshold = Returns Sampler.black.
Proof.
  split; [reflexivity |].
  destruct (decode_error_is_absorbed Example.image_mean "images/img2.png"
              (Exception "UnidentifiedImageError") Sampler.default_threshold
              eq_refl) as (Hcolor & Htext & _).
  split; [exact Hcolor | exact Htext].
Defined.

Lemma create_fitting_paragraph_size_witness :
  let chosen :=
    snd (Fitter.create_fitting_paragraph Example.wrap
           "0123456789012345678901234567890123456789"
           Assembler.title_style 100 300 10 20) in
  (10 <= 20)%Z /\ (10 <= chosen <= 20)%Z.
Proof.
  intros chosen. split; [lia |].
  apply (create_fitting_paragraph_size Example.wrap
           "0123456789012345678901234567890123456789"
           Assembler.title_style 100 300 10 20).
  lia.
Defined.

(** ** The image order *)

Section ImagesFacts.
Import Images.

Lemma string_ltb_false s t : String.ltb s t = false <-> String.le t s.
Proof.
  unfold String.le, String.ltb, String.leb. rewrite (String.compare_antisym t s).
  destruct (String.compare s t); simpl; split; intros H;
    try reflexivity; try discriminate H; try exact I; destruct H.
Qed.

Lemma num_ltb_irrefl a : num_ltb a a = false.
Proof. destruct a; simpl; [apply N.ltb_irrefl | reflexivity]. Qed.

Lemma num_eqb_eq a b : num_eqb a b = true <-> a = b.
Proof.
  destruct a, b; simpl; rewrite ?N.eqb_eq; split; intros H;
    try discriminate; try reflexivity; congruence.
Qed.

Lemma num_ltb_connex a b : num_ltb b a = false -> a <> b -> num_ltb a b = true.
Proof.
  destruct a as [x |], b as [y |]; simpl; intros Hlt Hne.
  - apply N.ltb_ge in Hlt. apply N.ltb_lt.
    assert (x <> y) by congruence. lia.
  - reflexivity.
  - discriminate Hlt.
  - congruence.
Qed.

Lemma num_ltb_asym a b : num_ltb a b = true -> num_ltb b a = false.
Proof.
  destruct a as [x |], b as [y |]; simpl; intros Hlt;
    try reflexivity; try discriminate Hlt.
  apply N.ltb_lt in Hlt. apply N.ltb_ge. lia.
Qed.

(** The order of the keys, spelled out: the number decides, the lowered name
    breaks ties. *)
Lemma key_le_spec a s b t :
  key_le (a, s) (b, t)
  <-> num_ltb a b = true \/ (a = b /\ String.le s t).
Proof.
  unfold key_le, key_ltb. cbn [fst snd].
  rewrite orb_false_iff, andb_false_iff, string_ltb_false.
  destruct (num_eqb b a) eqn:Heq.
  - apply num_eqb_eq in Heq as ->. rewrite num_ltb_irrefl.
    split; [intros [_ [H | H]]; [discriminate | auto] |].
    intros [H | [_ H]]; [discriminate | auto].
  - assert (Hne : a <> b).
    { intros ->. rewrite (proj2 (num_eqb_eq b b) eq_refl) in Heq. discriminate. }
    split.
    + intros [Hlt _]. left. apply num_ltb_connex; assumption.
    + intros [Hlt | [Heq' _]]; [| congruence].
      split; [apply num_ltb_asym; exact Hlt | auto].
Qed.

Lemma num_ltb_trans a b c :
  num_ltb a b = true -> num_ltb b c = true -> num_ltb a c = true.
Proof.
  destruct a, b, c; simpl; try discriminate; try reflexivity.
  rewrite !N.ltb_lt. lia.
Qed.

Lemma key_le_trans k1 k2 k3 : key_le k1 k2 -> key_le k2 k3 -> key_le k1 k3.
Proof.
  destruct k1 as [a s], k2 as [b t], k3 as [c u]. rewrite !key_le_spec.
  intros [Hab | [-> Hst]] [Hbc | [-> Htu]].
  - left. eapply num_ltb_trans; eassumption.
  - left. exact Hab.
  - left. exact Hbc.
  - right. split; [reflexivity |]. etransitivity; eassumption.
Qed.

Lemma key_le_total k1 k2 : key_le k1 k2 \/ key_le k2 k1.
Proof.
  destruct k1 as [a s], k2 as [b t]. rewrite !key_le_spec.
  destruct (decide (a = b)) as [-> | Hne].
  - destruct (String.le_total s t) as [H | H]; auto.
  - destruct (num_ltb b a) eqn:Hlt.
    + right. left. reflexivity.
    + left. left. apply num_ltb_connex; assumption.
Qed.

Abbreviation path_le := (fun p q : string => key_le (numeric_key p) (numeric_key q)).

Lemma insert_by_key_perm x l : Permutation (insert_by_key x l) (x :: l).
Proof.
  induction l as [| y l IH]; simpl; [reflexivity |].
  destruct (key_ltb (numeric_key y) (numeric_key x)); [| reflexivity].
  rewrite IH. apply perm_swap.
Qed.

Lemma sorted_by_key_perm l : Permutation (sorted_by_key l) l.
Proof.
  induction l as [| x l IH]; simpl; [reflexivity |].
  rewrite insert_by_key_perm, IH. reflexivity.
Qed.

Lemma insert_by_key_sorted x l :
  StronglySorted path_le l -> StronglySorted path_le (insert_by_key x l).
Proof.
  induction l as [| y l IH]; intros Hs; simpl.
  - repeat constructor.
  - inversion Hs as [| ? ? Hl Hy]; subst.
    destruct (key_ltb (numeric_key y) (numeric_key x)) eqn:Hlt.
    + constructor; [apply IH; exact Hl |].
      rewrite insert_by_key_perm.
      constructor; [| exact Hy].
      destruct (key_le_total (numeric_key y) (numeric_key x)) as [H | H];
        [exact H |].
      unfold key_le in H. congruence.
    + constructor; [exact Hs |].
      constructor; [exact Hlt |].
      eapply Forall_impl; [exact Hy |].
      intros z Hz. eapply key_le_trans; [exact Hlt | exact Hz].
Qed.

Lemma sorted_by_key_sorted l : StronglySorted path_le (sorted_by_key l).
Proof.
  induction l as [| x l IH]; simpl; [constructor |].
  apply insert_by_key_sorted. exact IH.
Qed.

(** The sort is stable: paths with the same key keep their order. *)
Lemma insert_by_key_stable k x l :
  List.filter (fun p => bool_decide (numeric_key p = k)) (insert_by_key x l)
  = List.filter (fun p => bool_decide (numeric_key p = k)) (x :: l).
Proof.
  induction l as [| y l IH]; [reflexivity |].
  cbn [insert_by_key].
  destruct (key_ltb (numeric_key y) (numeric_key x)) eqn:Hlt; [| reflexivity].
  cbn [List.filter] in *. rewrite IH.
  destruct (bool_decide (numeric_key x = k)) eqn:Hx; [| reflexivity].
  destruct (bool_decide (numeric_key y = k)) eqn:Hy; [| reflexivity].
  apply bool_decide_eq_true in Hx, Hy. rewrite Hx, Hy in Hlt.
  destruct k as [a s]. unfold key_ltb in Hlt. cbn [fst snd] in Hlt.
  rewrite num_ltb_irrefl in Hlt. simpl in Hlt.
  apply andb_true_iff in Hlt as [_ Hlt].
  assert (String.ltb s s = false) by (apply string_ltb_false; reflexivity).
  congruence.
Qed.

Lemma sorted_by_key_stable k l :
  List.filter (fun p => bool_decide (numeric_key p = k)) (sorted_by_key l)
  = List.filter (fun p => bool_decide (numeric_key p = k)) l.
Proof.
  induction l as [| x l IH]; [reflexivity |].
  cbn [sorted_by_key]. rewrite insert_by_key_stable.
  cbn [List.filter]. rewrite IH. reflexivity.
Qed.

Lemma StronglySorted_lookup_lt {A : Type} (R : A -> A -> Prop) (l : list A) :
  StronglySorted R l ->
  forall i j x y, l !! i = Some x -> l !! j = Some y -> i < j -> R x y.
Proof.
  induction 1 as [| a l Hs IH Ha]; intros i j x y Hi Hj Hlt.
  - rewrite lookup_nil in Hi. discriminate.
  - destruct j as [| j]; [lia |]. simpl in Hj. destruct i as [| i].
    + simpl in Hi. injection Hi as <-.
      rewrite Forall_forall in Ha. apply Ha.
      eapply list_elem_of_lookup_2. exact Hj.
    + simpl in Hi. apply (IH i j); [assumption | assumption | lia].
Qed.

End ImagesFacts.

(** ** The composed page text *)

Section TextFacts.
Import Text.

Lemma string_app_cons c s t : String c s +:+ t = String c (s +:+ t).
Proof. reflexivity. Qed.

Lemma string_app_nil_r s : s +:+ "" = s.
Proof.
  induction s as [| c s IH]; [reflexivity |].
  rewrite string_app_cons, IH. reflexivity.
Qed.

Lemma string_app_assoc s t u : (s +:+ t) +:+ u = s +:+ (t +:+ u).
Proof.
  induction s as [| c s IH]; [reflexivity |].
  rewrite !string_app_cons, IH. reflexivity.
Qed.

Lemma string_length_app s t :
  String.length (s +:+ t) = String.length s + String.length t.
Proof.
  induction s as [| c s IH]; [reflexivity |].
  rewrite string_app_cons. simpl. rewrite IH. reflexivity.
Qed.

Lemma string_app_inj_r s1 s2 t : s1 +:+ t = s2 +:+ t -> s1 = s2.
Proof.
  revert s2. induction s1 as [| c1 s1 IH]; intros [| c2 s2] H.
  - reflexivity.
  - apply (f_equal String.length) in H.
    rewrite !string_length_app in H. simpl in H. lia.
  - apply (f_equal String.length) in H.
    rewrite !string_length_app in H. simpl in H. lia.
  - rewrite !string_app_cons in H. injection H as -> H.
    rewrite (IH s2 H). reflexivity.
Qed.

Lemma string_concat_cons sep x y l :
  String.concat sep (x :: y :: l) = x +:+ sep +:+ String.concat sep (y :: l).
Proof. reflexivity. Qed.

Lemma string_concat_app sep (l1 l2 : list string) :
  l1 <> [] -> l2 <> [] ->
  String.concat sep (l1 ++ l2)
  = String.concat sep l1 +:+ sep +:+ String.concat sep l2.
Proof.
  intros H1 H2. induction l1 as [| x l1 IH]; [congruence |].
  destruct l1 as [| x' l1].
  - destruct l2 as [| y l2]; [congruence |]. reflexivity.
  - change ((x :: x' :: l1) ++ l2) with (x :: x' :: (l1 ++ l2)).
    rewrite !string_concat_cons.
    change (x' :: (l1 ++ l2)) with ((x' :: l1) ++ l2).
    rewrite IH by discriminate. rewrite !string_app_assoc. reflexivity.
Qed.

(** Joining the joined groups with the separator that joined each group is
    joining all the elements. *)
Lemma string_concat_flat sep (ls : list (list string)) :
  Forall (fun l => l <> []) ls ->
  String.concat sep (map (String.concat sep) ls) = String.concat sep (concat ls).
Proof.
  induction ls as [| l ls IH]; intros Hne; [reflexivity |].
  inversion Hne as [| ? ? Hl Hls]; subst.
  destruct ls as [| l' ls].
  - simpl. rewrite app_nil_r. reflexivity.
  - change (map (String.concat sep) (l :: l' :: ls))
      with (String.concat sep l :: String.concat sep l'
              :: map (String.concat sep) ls).
    rewrite string_concat_cons.
    change (String.concat sep l' :: map (String.concat sep) ls)
      with (map (String.concat sep) (l' :: ls)).
    rewrite IH by exact Hls.
    change (concat (l :: l' :: ls)) with (l ++ concat (l' :: ls)).
    rewrite string_concat_app; [reflexivity | exact Hl |].
    inversion Hls; subst. simpl. destruct l'; [congruence | discriminate].
Qed.

Lemma lstrip_spec s :
  lstrip s = "" \/ exists c r, lstrip s = String c r /\ is_space c = false.
Proof.
  induction s as [| c s IH]; [left; reflexivity |].
  simpl. destruct (is_space c) eqn:Hc; [exact IH |]. right. eauto.
Qed.

Lemma rstrip_head c r :
  is_space c = false -> exists r', rstrip (String c r) = String c r'.
Proof.
  intros Hc. simpl. destruct (rstrip r); [rewrite Hc |]; eauto.
Qed.

(** A stripped string is empty or starts with a character that is not white
    space. *)
Lemma strip_spec s :
  strip s = "" \/ exists c r, strip s = String c r /\ is_space c = false.
Proof.
  unfold strip. destruct (lstrip_spec s) as [-> | (c & r & -> & Hc)].
  - left. reflexivity.
  - right. destruct (rstrip_head c r Hc) as [r' ->]. eauto.
Qed.

Lemma strip_head c r :
  is_space c = false -> exists r', strip (String c r) = String c r'.
Proof.
  intros Hc. unfold strip. simpl lstrip. rewrite Hc. apply rstrip_head. exact Hc.
Qed.

Lemma re_split_not_nil skipping s : re_split skipping s <> [].
Proof.
  revert skipping. induction s as [| c s IH]; intros skipping; simpl.
  - discriminate.
  - destruct (skipping && is_space c); [apply IH |].
    destruct (is_terminator c && starts_with_space s); [discriminate |].
    destruct (re_split false s); discriminate.
Qed.

Lemma re_split_head c r :
  exists p ps, re_split false (String c r) = String c p :: ps.
Proof.
  simpl. destruct (is_terminator c && starts_with_space r); [eauto |].
  destruct (re_split false r); simpl; eauto.
Qed.

(** Every chunk of a page has at least one sentence. *)
Lemma raw_chunks_sentences page_text :
  Forall (fun chunk => split_into_sentences chunk <> []) (raw_chunks page_text).
Proof.
  unfold raw_chunks. apply Forall_forall. intros chunk Hin.
  apply list_elem_of_In, in_map_iff in Hin as (p & <- & Hp).
  apply filter_In in Hp as [_ Hp].
  destruct (strip_spec p) as [Heq | (c & r & Heq & Hc)].
  - rewrite Heq in Hp. discriminate Hp.
  - rewrite Heq. unfold split_into_sentences.
    destruct (strip_head c r Hc) as [r' ->].
    destruct (re_split_head c r') as (q & ps & ->). simpl. discriminate.
Qed.

Lemma split_blank_not_nil s : split_blank s <> [].
Proof.
  destruct s as [| c1 [| c2 r]]; simpl; try discriminate.
  destruct (Ascii.eqb c1 newline && Ascii.eqb c2 newline); [discriminate |].
  destruct (match r with "" => _ | String _ _ => _ end); discriminate.
Qed.

Lemma string_concat_cons_head sep c l :
  l <> [] -> String.concat sep (cons_head c l) = String c (String.concat sep l).
Proof.
  destruct l as [| p [| p' l]]; [congruence | reflexivity | reflexivity].
Qed.

(** Putting [\n\n] back between the pieces gives the text back. *)
Lemma split_blank_join s : String.concat blank_line (split_blank s) = s.
Proof.
  assert (H : String.concat blank_line (split_blank s) = s /\
              forall c, String.concat blank_line (split_blank (String c s))
                        = String c s).
  { induction s as [| c2 r [IH1 IH2]].
    - split; [reflexivity |]. intros c. reflexivity.
    - split; [apply IH2 |]. intros c1.
      change (split_blank (String c1 (String c2 r)))
        with (if Ascii.eqb c1 newline && Ascii.eqb c2 newline
              then "" :: split_blank r
              else cons_head c1 (split_blank (String c2 r))).
      destruct (Ascii.eqb c1 newline && Ascii.eqb c2 newline) eqn:Hnl.
      + apply andb_true_iff in Hnl as [H1 H2].
        apply Ascii.eqb_eq in H1, H2. subst c1 c2.
        pose proof (split_blank_not_nil r) as Hne.
        destruct (split_blank r) as [| p ps] eqn:Hsplit; [congruence |].
        rewrite string_concat_cons, IH1. reflexivity.
      + rewrite string_concat_cons_head by apply split_blank_not_nil.
        rewrite IH2. reflexivity. }
  apply H.
Qed.

(** Every piece of the sentence split but the last ends with a terminator. *)
Lemma re_split_terminated s : forall skipping i p,
  S i < length (re_split skipping s) ->
  re_split skipping s !! i = Some p ->
  ends_in_terminator p.
Proof.
  induction s as [| c r IH]; intros skipping i p Hlen Hp.
  - simpl in Hlen. lia.
  - simpl in Hlen, Hp. destruct (skipping && is_space c).
    + eapply IH; eassumption.
    + destruct (is_terminator c && starts_with_space r) eqn:Hterm.
      * apply andb_true_iff in Hterm as [Hterm _].
        destruct i as [| i].
        -- injection Hp as <-. exists "", c. split; [reflexivity | exact Hterm].
        -- simpl in Hlen, Hp. apply (IH true i p); [lia | exact Hp].
      * pose proof (re_split_not_nil false r) as Hne.
        destruct (re_split false r) as [| p0 ps] eqn:Hsplit; [congruence |].
        simpl in Hlen, Hp. destruct i as [| i].
        -- injection Hp as <-.
           destruct (IH false 0 p0) as (q & c' & -> & Hc');
             [rewrite Hsplit; simpl; lia | rewrite Hsplit; reflexivity |].
           exists (String c q), c'. split; [reflexivity | exact Hc'].
        -- apply (IH false (S i) p);
             [rewrite Hsplit; simpl; lia | rewrite Hsplit; exact Hp].
Qed.

(** In a sentence split, every piece after the first starts with a character
    that is not white space (or is empty), and so does the first when the
    split starts after white space was skipped or the text does not start with
    white space. *)
Lemma re_split_leading s : forall skipping,
  match re_split skipping s with
  | [] => True
  | p :: ps =>
      Forall (fun q => starts_with_space q = false) ps /\
      (skipping = true \/ starts_with_space s = false ->
       starts_with_space p = false)
  end.
Proof.
  induction s as [| c r IH]; intros skipping.
  - simpl. split; [constructor | reflexivity].
  - cbn [re_split].
    destruct (skipping && is_space c) eqn:Hskip.
    + pose proof (IH true) as IHt.
      destruct (re_split true r) as [| p ps]; [exact I |].
      destruct IHt as [Hps Hp]. split; [exact Hps |]. intros _. apply Hp. auto.
    + assert (Hc : skipping = true \/ starts_with_space (String c r) = false ->
                   is_space c = false).
      { intros [-> | H]; [exact Hskip | exact H]. }
      destruct (is_terminator c && starts_with_space r).
      * split; [| intros H; apply Hc; exact H].
        pose proof (IH true) as IHt.
        destruct (re_split true r) as [| p ps]; [constructor |].
        destruct IHt as [Hps Hp]. constructor; [apply Hp; auto | exact Hps].
      * pose proof (IH false) as IHf.
        destruct (re_split false r) as [| p ps]; simpl.
        -- split; [constructor | exact Hc].
        -- destruct IHf as [Hps _]. split; [exact Hps | exact Hc].
Qed.

(** The first piece of a split at blank lines starts like the text, unless
    the text starts with a blank line. *)
Lemma split_blank_first c r :
  (exists q ps, split_blank (String c r) = String c q :: ps) \/
  (c = newline /\ exists p ps, split_blank (String c r) = "" :: p :: ps).
Proof.
  destruct r as [| c2 r].
  - left. exists "", []. reflexivity.
  - change (split_blank (String c (String c2 r)))
      with (if Ascii.eqb c newline && Ascii.eqb c2 newline
            then "" :: split_blank r
            else cons_head c (split_blank (String c2 r))).
    destruct (Ascii.eqb c newline && Ascii.eqb c2 newline) eqn:Hnl.
    + right. apply andb_true_iff in Hnl as [H1 _]. apply Ascii.eqb_eq in H1.
      split; [exact H1 |].
      pose proof (split_blank_not_nil r) as Hne.
      destruct (split_blank r) as [| p ps]; [congruence | eauto].
    + left. destruct (split_blank (String c2 r)) as [| p ps]; simpl; eauto.
Qed.

Lemma has_blank_line_cons c1 c2 r :
  has_blank_line (String c1 (String c2 r))
  = (Ascii.eqb c1 newline && Ascii.eqb c2 newline)
    || has_blank_line (String c2 r).
Proof. reflexivity. Qed.

(** No piece of the split at blank lines holds a blank line, and a piece
    that is followed by another does not end where a blank line starts: the
    text is cut at every blank line, the leftmost first. *)
Lemma split_blank_pieces s : forall i p,
  split_blank s !! i = Some p ->
  has_blank_line p = false /\
  (S i < length (split_blank s) ->
   has_blank_line (p +:+ String newline "") = false).
Proof.
  assert (H : (forall i p,
                 split_blank s !! i = Some p ->
                 has_blank_line p = false /\
                 (S i < length (split_blank s) ->
                  has_blank_line (p +:+ String newline "") = false)) /\
              forall c i p,
                split_blank (String c s) !! i = Some p ->
                has_blank_line p = false /\
                (S i < length (split_blank (String c s)) ->
                 has_blank_line (p +:+ String newline "") = false)).
  { induction s as [| c2 r [IH1 IH2]].
    - split.
      + intros [| i] p Hp; simpl in Hp; [| discriminate Hp].
        injection Hp as <-. split; [reflexivity | simpl; lia].
      + intros c [| i] p Hp; simpl in Hp; [| discriminate Hp].
        injection Hp as <-. split; [reflexivity | simpl; lia].
    - split; [apply IH2 |]. intros c1 i p.
      change (split_blank (String c1 (String c2 r)))
        with (if Ascii.eqb c1 newline && Ascii.eqb c2 newline
              then "" :: split_blank r
              else cons_head c1 (split_blank (String c2 r))).
      destruct (Ascii.eqb c1 newline && Ascii.eqb c2 newline) eqn:Hnl.
      + destruct i as [| i]; simpl; intros Hp.
        * injection Hp as <-. split; reflexivity.
        * destruct (IH1 i p Hp) as [Hno Hnext]. split; [exact Hno |].
          intros Hlen. apply Hnext. lia.
      + destruct (split_blank_first c2 r)
          as [(q & ps & Hsplit) | (Hc2 & p0 & ps & Hsplit)];
          rewrite Hsplit; pose proof (IH2 c2) as IHc; rewrite Hsplit in IHc.
        * destruct i as [| i]; simpl; intros Hp.
          -- injection Hp as <-.
             destruct (IHc 0 (String c2 q) eq_refl) as [Hno Hnext].
             split.
             ++ rewrite has_blank_line_cons, Hnl. exact Hno.
             ++ intros Hlen. rewrite !string_app_cons.
                rewrite has_blank_line_cons, Hnl.
                rewrite <- string_app_cons. apply Hnext. simpl. lia.
          -- destruct (IHc (S i) p Hp) as [Hno Hnext]. split; [exact Hno |].
             intros Hlen. apply Hnext. simpl. lia.
        * destruct i as [| i]; simpl; intros Hp.
          -- injection Hp as <-. split; [reflexivity |]. intros _.
             subst c2. rewrite Ascii.eqb_refl, andb_true_r in Hnl.
             simpl. rewrite Hnl. reflexivity.
          -- destruct (IHc (S i) p Hp) as [Hno Hnext]. split; [exact Hno |].
             intros Hlen. apply Hnext. simpl. lia. }
  apply H.
Qed.

Lemma lstrip_split s :
  exists l, s = l +:+ lstrip s /\ all_space l = true /\
            (starts_with_space s = true -> l <> "").
Proof.
  induction s as [| c s IH].
  - exists "". split; [reflexivity |]. split; [reflexivity | discriminate].
  - simpl. destruct (is_space c) eqn:Hc.
    + destruct IH as (l & Hl & Hsp & _). exists (String c l).
      split; [rewrite string_app_cons; f_equal; exact Hl |].
      split; [simpl; rewrite Hc; exact Hsp | discriminate].
    + exists "". split; [reflexivity |]. split; [reflexivity | discriminate].
Qed.

Lemma rstrip_split s :
  exists r, s = rstrip s +:+ r /\ all_space r = true /\
            (rstrip s = "" \/
             exists q c, rstrip s = q +:+ String c "" /\ is_space c = false).
Proof.
  induction s as [| c s IH].
  - exists "". split; [reflexivity |]. split; [reflexivity | left; reflexivity].
  - destruct IH as (r & Hr & Hsp & Hlast). simpl.
    destruct (rstrip s) as [| a t] eqn:Hrs.
    + simpl in Hr. subst s. destruct (is_space c) eqn:Hc.
      * exists (String c r). split; [reflexivity |].
        split; [simpl; rewrite Hc; exact Hsp | left; reflexivity].
      * exists r. split; [reflexivity |]. split; [exact Hsp |].
        right. exists "", c. split; [reflexivity | exact Hc].
    + exists r. split; [rewrite string_app_cons; f_equal; exact Hr |].
      split; [exact Hsp |]. right.
      destruct Hlast as [Hnil | (q & c' & Hq & Hc')]; [discriminate Hnil |].
      exists (String c q), c'. split; [rewrite string_app_cons, Hq; reflexivity |].
      exact Hc'.
Qed.

(** [strip] removes the white space around a text and nothing else. *)
Lemma strip_split s :
  exists l r,
    s = l +:+ strip s +:+ r /\ all_space l = true /\ all_space r = true /\
    (strip s = "" \/
     (starts_with_space (strip s) = false /\
      exists q c, strip s = q +:+ String c "" /\ is_space c = false)).
Proof.
  destruct (lstrip_split s) as (l & Hl & Hlsp & _).
  destruct (rstrip_split (lstrip s)) as (r & Hr & Hrsp & Hlast).
  exists l, r. fold (strip s) in Hr, Hlast.
  split; [rewrite <- Hr; exact Hl |]. split; [exact Hlsp |].
  split; [exact Hrsp |].
  destruct Hlast as [Hnil | Hlast]; [left; exact Hnil | right].
  split; [| exact Hlast].
  destruct (strip_spec s) as [Heq | (c & t & Heq & Hc)]; rewrite Heq;
    [reflexivity | exact Hc].
Qed.

Lemma re_split_first_space r :
  match re_split false r with
  | p :: _ => starts_with_space p = true -> starts_with_space r = true
  | [] => True
  end.
Proof.
  destruct r as [| c r]; [simpl; intros H; exact H |].
  destruct (re_split_head c r) as (p & ps & ->). intros H. exact H.
Qed.

(** No piece of the sentence split holds a terminator with white space after
    it: the text is cut at every sentence boundary. *)
Lemma re_split_no_boundary s : forall skipping p,
  In p (re_split skipping s) -> has_boundary p = false.
Proof.
  induction s as [| c r IH]; intros skipping p Hin.
  - simpl in Hin. destruct Hin as [<- | []]. reflexivity.
  - cbn [re_split] in Hin. destruct (skipping && is_space c).
    + eapply IH; eassumption.
    + destruct (is_terminator c && starts_with_space r) eqn:Hb.
      * destruct Hin as [<- | Hin]; [| eapply IH; eassumption].
        simpl. rewrite andb_false_r. reflexivity.
      * pose proof (re_split_first_space r) as Hfirst.
        pose proof (IH false) as IHf.
        destruct (re_split false r) as [| p0 ps].
        -- simpl in Hin. destruct Hin as [<- | []].
           simpl. rewrite andb_false_r. reflexivity.
        -- simpl in Hin. destruct Hin as [<- | Hin];
             [| apply (IHf p); right; exact Hin].
           cbn [has_boundary].
           rewrite (IHf p0 (or_introl eq_refl)), orb_false_r.
           destruct (is_terminator c); [| reflexivity].
           destruct (starts_with_space p0); [| reflexivity].
           rewrite (Hfirst eq_refl) in Hb. discriminate Hb.
Qed.

Lemma weave_cons_head c pieces seps :
  pieces <> [] -> weave (cons_head c pieces) seps = String c (weave pieces seps).
Proof.
  destruct pieces as [| p ps]; [congruence |]. intros _. simpl.
  destruct ps, seps; reflexivity.
Qed.

Lemma cons_head_length c pieces :
  pieces <> [] -> length (cons_head c pieces) = length pieces.
Proof. destruct pieces; [congruence | reflexivity]. Qed.

(** The sentence split drops runs of white space and nothing else: with a
    run of white space put back between each two pieces, the text is
    there again. *)
Lemma re_split_weave s : forall skipping,
  exists seps,
    S (length seps) = length (re_split skipping s) /\
    Forall (fun sep => sep <> "" /\ all_space sep = true) seps /\
    weave (re_split skipping s) seps = if skipping then lstrip s else s.
Proof.
  induction s as [| c r IH]; intros skipping.
  - exists []. split; [reflexivity |]. split; [constructor |].
    destruct skipping; reflexivity.
  - cbn [re_split]. destruct (skipping && is_space c) eqn:Hskip.
    + apply andb_true_iff in Hskip as [-> Hc].
      destruct (IH true) as (seps & Hlen & Hseps & Hweave).
      exists seps. split; [exact Hlen |]. split; [exact Hseps |].
      simpl. rewrite Hc. exact Hweave.
    + assert (Htarget : (if skipping then lstrip (String c r) else String c r)
                        = String c r).
      { destruct skipping; [| reflexivity]. simpl in Hskip |- *.
        rewrite Hskip. reflexivity. }
      rewrite Htarget.
      destruct (is_terminator c && starts_with_space r) eqn:Hb.
      * apply andb_true_iff in Hb as [_ Hsp].
        destruct (IH true) as (seps & Hlen & Hseps & Hweave).
        destruct (lstrip_split r) as (l & Hl & Hlsp & Hne).
        exists (l :: seps). split; [simpl; rewrite Hlen; reflexivity |].
        split; [constructor; [split; [apply Hne; exact Hsp | exact Hlsp] |
                              exact Hseps] |].
        pose proof (re_split_not_nil true r) as Hnil.
        destruct (re_split true r) as [| p ps]; [congruence |].
        change (weave (String c "" :: p :: ps) (l :: seps))
          with (String c "" +:+ l +:+ weave (p :: ps) seps).
        rewrite Hweave. rewrite string_app_cons. simpl.
        rewrite <- Hl. reflexivity.
      * destruct (IH false) as (seps & Hlen & Hseps & Hweave).
        exists seps.
        rewrite cons_head_length by apply re_split_not_nil.
        split; [exact Hlen |]. split; [exact Hseps |].
        rewrite weave_cons_head by apply re_split_not_nil.
        rewrite Hweave. reflexivity.
Qed.

(** C9, as the code has it: the page text is cut at every blank line
    ([\n\n]) into paragraphs, which are stripped and dropped when empty;
    every paragraph is cut into sentences at every run of white space that
    follows [.], [!] or [?], and the run is dropped; the sentences of a
    paragraph and the paragraphs are joined with one and the same break,
    [<br/><br/>]. *)
Theorem html_text_breaks (page_text : string) :
  let pieces := split_blank page_text in
  String.concat blank_line pieces = page_text /\
  (forall i p,
     pieces !! i = Some p ->
     has_blank_line p = false /\
     (S i < length pieces ->
      has_blank_line (p +:+ String newline "") = false)) /\
  raw_chunks page_text
  = map strip (List.filter (fun p => nonempty (strip p)) pieces) /\
  (forall s,
     exists l r,
       s = l +:+ strip s +:+ r /\ all_space l = true /\ all_space r = true /\
       (strip s = "" \/
        (starts_with_space (strip s) = false /\
         exists q c, strip s = q +:+ String c "" /\ is_space c = false))) /\
  (forall chunk,
     let parts := re_split false (strip chunk) in
     split_into_sentences chunk = List.filter nonempty parts /\
     (exists seps,
        S (length seps) = length parts /\
        Forall (fun sep => sep <> "" /\ all_space sep = true) seps /\
        weave parts seps = strip chunk) /\
     forall i p,
       parts !! i = Some p ->
       has_boundary p = false /\
       (S i < length parts -> ends_in_terminator p) /\
       (0 < i -> starts_with_space p = false)) /\
  html_text page_text
  = String.concat "<br/><br/>"
      (map (fun chunk => String.concat "<br/><br/>" (split_into_sentences chunk))
           (raw_chunks page_text)) /\
  html_text page_text
  = String.concat "<br/><br/>"
      (concat (map split_into_sentences (raw_chunks page_text))) /\
  html_text ("One. Two!  Three?" +:+ blank_line +:+ " Next one. ")
  = "One.<br/><br/>Two!<br/><br/>Three?<br/><br/>Next one.".
Proof.
  intros pieces.
  split; [apply split_blank_join |].
  split; [apply split_blank_pieces |].
  split; [reflexivity |].
  split; [apply strip_split |].
  split.
  { intros chunk parts. split; [reflexivity |].
    split; [apply (re_split_weave (strip chunk) false) |].
    intros i p Hp. split; [| split].
    - apply (re_split_no_boundary (strip chunk) false).
      apply list_elem_of_In. eapply list_elem_of_lookup_2. exact Hp.
    - intros Hlen. eapply re_split_terminated; eassumption.
    - intros Hi. pose proof (re_split_leading (strip chunk) false) as Hlead.
      fold parts in Hlead. destruct parts as [| p0 ps]; [discriminate Hp |].
      destruct Hlead as [Hps _]. destruct i as [| i]; [lia |].
      simpl in Hp. rewrite Forall_forall in Hps. apply Hps.
      eapply list_elem_of_lookup_2. exact Hp. }
  assert (Hhtml : html_text page_text
                  = String.concat "<br/><br/>"
                      (map (String.concat "<br/><br/>")
                           (map split_into_sentences (raw_chunks page_text)))).
  { unfold html_text, chunk_html. rewrite <- map_map.
    destruct (map (String.concat "<br/><br/>") _); reflexivity. }
  split; [rewrite Hhtml, map_map; reflexivity |].
  split; [| reflexivity].
  rewrite Hhtml. apply string_concat_flat.
  apply Forall_map. apply raw_chunks_sentences.
Qed.

(** C9 as stated fails: no two different breaks, one between sentences and one
    between paragraphs, give the composed text; ["A. B."] and ["A.\n\nB."]
    compose to the same text. *)
Lemma paragraph_break_counterexample :
  html_text "A. B." = "A.<br/><br/>B." /\
  html_text ("A." +:+ blank_line +:+ "B.") = "A.<br/><br/>B." /\
  ~ exists sentence_break paragraph_break : string,
      sentence_break <> paragraph_break /\
      forall page_text,
        html_text page_text
        = String.concat paragraph_break
            (map (fun chunk =>
                    String.concat sentence_break (split_into_sentences chunk))
                 (raw_chunks page_text)).
Proof.
  split; [reflexivity |]. split; [reflexivity |].
  intros (sb & pb & Hne & Hall).
  pose proof (Hall "A. B.") as Hs.
  pose proof (Hall ("A." +:+ blank_line +:+ "B.")) as Hp.
  change ("A.<br/><br/>B." = String "A" (String "." (sb +:+ "B."))) in Hs.
  change ("A.<br/><br/>B." = String "A" (String "." (pb +:+ "B."))) in Hp.
  rewrite Hs in Hp. injection Hp as Hp.
  apply Hne. apply (string_app_inj_r sb pb "B."). exact Hp.
Qed.

End TextFacts.

(** ** The merger *)

Section MergerFacts.
Import Merger.
Local Open Scope Q_scope.

Lemma set_all_boxes_stamped page width height :
  stamped width height (_set_all_boxes page width height).
Proof. repeat split. Qed.

Lemma set_all_boxes_transformations page width height :
  transformations (_set_all_boxes page width height) = transformations page.
Proof. reflexivity. Qed.


Lemma within_tolerance_iff w h TARGET_W TARGET_H :
  within_tolerance w h TARGET_W TARGET_H = true
  <-> Qabs (w - TARGET_W) <= 1 /\ Qabs (h - TARGET_H) <= 1.
Proof.
  unfold within_tolerance, TOL. rewrite andb_true_iff, !Qle_bool_iff.
  reflexivity.
Qed.


Lemma normalize_preface_page_stamped TARGET_W TARGET_H page page' :
  normalize_preface_page TARGET_W TARGET_H page = Returns page' ->
  stamped TARGET_W TARGET_H page'.
Proof.
  unfold normalize_preface_page.
  destruct (within_tolerance _ _ _ _).
  - intros H. apply Returns_inj in H as <-. apply set_all_boxes_stamped.
  - destruct (fit_transformation _ _ _ _) as [t | e]; cbn; [| discriminate].
    intros H. apply Returns_inj in H as <-. apply set_all_boxes_stamped.
Qed.


Lemma mapM_stamped TARGET_W TARGET_H front out :
  mapM (normalize_preface_page TARGET_W TARGET_H) front = Returns out ->
  Forall (stamped TARGET_W TARGET_H) out.
Proof.
  revert out. induction front as [| page front IH]; intros out; simpl.
  - intros H. apply Returns_inj in H as <-. constructor.
  - destruct (normalize_preface_page TARGET_W TARGET_H page) as [page' |] eqn:Hp;
      cbn; [| discriminate].
    destruct (mapM _ front) as [front' |]; cbn; [| discriminate].
    intros H. apply Returns_inj in H as <-.
    constructor; [eapply normalize_preface_page_stamped; exact Hp |].
    apply IH. reflexivity.
Qed.



(** Every page that the merge writes carries the target rectangle in all five
    boxes. *)
Lemma merge_output_stamped path_exists PdfReader preface_path inner_book_path
    page_width_inch page_height_inch out :
  merge_preface_and_book path_exists PdfReader preface_path inner_book_path
    page_width_inch page_height_inch = Returns out ->
  Forall (stamped (page_width_inch * 72) (page_height_inch * 72)) out.
Proof.
  unfold merge_preface_and_book.
  destruct (negb (path_exists preface_path)); [discriminate |].
  destruct (negb (path_exists inner_book_path)); [discriminate |].
  destruct (mapM _ (PdfReader preface_path)) as [front |] eqn:Hfront;
    cbn; [| discriminate].
  intros H. apply Returns_inj in H as <-.
  apply Forall_app. split.
  - eapply mapM_stamped. exact Hfront.
  - apply Forall_map. apply Forall_forall. intros page _.
    apply set_all_boxes_stamped.
Qed.


(** C3, as the code has it: a front-matter page of size
    [(2 * TARGET_W, TARGET_H)], with [TARGET_W] above the tolerance, is scaled
    by 1/2 in both directions and moved by [(0, TARGET_H / 4)], and its five
    boxes become the target rectangle at the origin. *)
Theorem double_width_page_is_halved TARGET_W TARGET_H page :
  1 < TARGET_W -> 0 < TARGET_H ->
  box_width (mediabox page) == 2 * TARGET_W ->
  box_height (mediabox page) == TARGET_H ->
  exists page' t,
    normalize_preface_page TARGET_W TARGET_H page = Returns page' /\
    transformations page' = (transformations page ++ [t])%list /\
    ctm_a t == 1 # 2 /\ ctm_b t == 0 /\ ctm_c t == 0 /\ ctm_d t == 1 # 2 /\
    ctm_e t == 0 /\ ctm_f t == TARGET_H / 4 /\
    stamped TARGET_W TARGET_H page'.
Proof.
  intros HW HH Hw Hh. unfold normalize_preface_page.
  set (w := box_width (mediabox page)) in *.
  set (h := box_height (mediabox page)) in *.
  assert (Htol : within_tolerance w h TARGET_W TARGET_H = false).
  { destruct (within_tolerance w h TARGET_W TARGET_H) eqn:Htol; [| reflexivity].
    apply within_tolerance_iff in Htol as [Htol _].
    apply Qabs_Qle_condition in Htol. lra. }
  rewrite Htol. unfold fit_transformation, py_div.
  assert (Hw0 : Qeq_bool w 0 = false).
  { destruct (Qeq_bool w 0) eqn:H0; [| reflexivity].
    apply Qeq_bool_iff in H0. lra. }
  assert (Hh0 : Qeq_bool h 0 = false).
  { destruct (Qeq_bool h 0) eqn:H0; [| reflexivity].
    apply Qeq_bool_iff in H0. lra. }
  rewrite Hw0, Hh0. cbn.
  assert (Hsx : TARGET_W / w == 1 # 2) by (rewrite Hw; field; lra).
  assert (Hsy : TARGET_H / h == 1) by (rewrite Hh; field; lra).
  assert (Hmin : py_min (TARGET_W / w) (TARGET_H / h) = TARGET_W / w).
  { unfold py_min. destruct (Qlt_le_dec _ _) as [Hlt | _]; [| reflexivity].
    rewrite Hsx, Hsy in Hlt. lra. }
  rewrite Hmin. eexists _, _. split; [reflexivity |].
  split; [reflexivity |].
  unfold translate, scale, identity. cbn [ctm_a ctm_b ctm_c ctm_d ctm_e ctm_f].
  split; [rewrite Hsx; ring |]. split; [ring |]. split; [ring |].
  split; [rewrite Hsx; ring |].
  split; [rewrite Hsx, Hw; field |].
  split; [rewrite Hsx, Hh; field |].
  apply set_all_boxes_stamped.
Qed.

End MergerFacts.


(** C3 as stated fails: for the target of 621 by 630 points a page of 1242 by
    630 points is scaled by 1/2 and moved up by 157.5 points, not by zero. *)
Lemma double_width_vertical_offset_counterexample :
  Merger.box_width (Merger.mediabox Example.wide_page) == 2 * 621 /\
  Merger.box_height (Merger.mediabox Example.wide_page) == 630 /\
  exists page' t,
    Merger.normalize_preface_page 621 630 Example.wide_page = Returns page' /\
    Merger.transformations page' = [t] /\
    Merger.ctm_a t == 1 # 2 /\
    Merger.ctm_f t == 315 # 2 /\
    ~ Merger.ctm_f t == 0.
Proof.
  split; [reflexivity |]. split; [reflexivity |].
  eexists _, _. split; [vm_compute; reflexivity |].
  split; [reflexivity |]. split; [reflexivity |]. split; [reflexivity |].
  intros H. discriminate H.
Qed.

Lemma double_width_page_is_halved_witness :
  exists page' t,
    Merger.normalize_preface_page 621 630 Example.wide_page = Returns page' /\
    Merger.transformations page' = [t] /\
    Merger.ctm_f t == 630 / 4.
Proof.
  destruct (double_width_page_is_halved 621 630 Example.wide_page)
    as (page' & t & Hpage & Htrans & _ & _ & _ & _ & _ & Hf & _).
  - reflexivity.
  - reflexivity.
  - reflexivity.
  - reflexivity.
  - exists page', t. split; [exact Hpage |]. split; [exact Htrans | exact Hf].
Defined.


(** ** More on the image resolver *)

Section ImagesMore.
Import Images.

Lemma key_le_antisym k1 k2 : key_le k1 k2 -> key_le k2 k1 -> k1 = k2.
Proof.
  destruct k1 as [a s], k2 as [b t]. rewrite !key_le_spec.
  intros [Hab | [-> Hst]] [Hba | [Heq Hts]].
  - apply num_ltb_asym in Hab. congruence.
  - subst. rewrite num_ltb_irrefl in Hab. discriminate.
  - rewrite num_ltb_irrefl in Hba. discriminate.
  - f_equal. apply (anti_symm String.le); assumption.
Qed.

Lemma filter_perm {A : Type} (f : A -> bool) (l l' : list A) :
  Permutation l l' -> Permutation (List.filter f l) (List.filter f l').
Proof.
  induction 1 as [| x l l' _ IH | x y l | l l' l'' _ IH1 _ IH2]; simpl.
  - reflexivity.
  - destruct (f x); [constructor |]; exact IH.
  - destruct (f x), (f y); try reflexivity. apply perm_swap.
  - etransitivity; eassumption.
Qed.

(** What the six patterns find, the matches of a pattern in any order. *)
Lemma found_perm (glob glob' : string -> list string) images_dir :
  (forall pattern, Permutation (glob pattern) (glob' pattern)) ->
  Permutation
    (concat (map (fun pattern => glob (path_join images_dir pattern)) exts))
    (concat (map (fun pattern => glob' (path_join images_dir pattern)) exts)).
Proof.
  intros Hperm. induction exts as [| pattern rest IH]; simpl; [reflexivity |].
  apply Permutation_app; [apply Hperm | exact IH].
Qed.

(** Two sorted arrangements of the same paths are equal when no two paths
    share a key. *)
Lemma sorted_unique (l1 : list string) : forall l2,
  StronglySorted (fun p q => key_le (numeric_key p) (numeric_key q)) l1 ->
  StronglySorted (fun p q => key_le (numeric_key p) (numeric_key q)) l2 ->
  Permutation l1 l2 ->
  (forall p q, In p l1 -> In q l1 -> numeric_key p = numeric_key q -> p = q) ->
  l1 = l2.
Proof.
  induction l1 as [| x l1 IH]; intros l2 Hs1 Hs2 Hperm Hinj.
  - apply Permutation_nil in Hperm. congruence.
  - destruct l2 as [| y l2];
      [symmetry in Hperm; apply Permutation_nil in Hperm; discriminate |].
    inversion Hs1 as [| ? ? Hs1' Hx]; subst.
    inversion Hs2 as [| ? ? Hs2' Hy]; subst.
    rewrite Forall_forall in Hx, Hy.
    assert (Hxy : x = y).
    { assert (Hyin : In y (x :: l1))
        by (apply (Permutation_in y (Permutation_sym Hperm)); left; reflexivity).
      assert (Hxin : In x (y :: l2))
        by (apply (Permutation_in x Hperm); left; reflexivity).
      destruct Hyin as [Heq | Hyin]; [exact Heq |].
      destruct Hxin as [Heq | Hxin]; [congruence |].
      apply Hinj; [left; reflexivity | right; exact Hyin |].
      apply key_le_antisym.
      - apply Hx. apply list_elem_of_In. exact Hyin.
      - apply Hy. apply list_elem_of_In. exact Hxin. }
    subst y. f_equal. apply IH; try assumption.
    + apply Permutation_cons_inv in Hperm. exact Hperm.
    + intros p q Hp Hq. apply Hinj; right; assumption.
Qed.

(** X4: when no two images found share a sort key, the order returned does
    not depend on the order in which the operating system lists the
    directory, that is, in which [glob] yields the matches of a pattern. *)
Theorem load_image_paths_listing_order (glob glob' : string -> list string)
    (images_dir : string) :
  (forall pattern, Permutation (glob pattern) (glob' pattern)) ->
  (forall p q,
     In p (load_image_paths glob images_dir) ->
     In q (load_image_paths glob images_dir) ->
     numeric_key p = numeric_key q -> p = q) ->
  load_image_paths glob images_dir = load_image_paths glob' images_dir.
Proof.
  intros Hperm Hinj. unfold load_image_paths in *.
  apply sorted_unique; [apply sorted_by_key_sorted .. | | exact Hinj].
  rewrite !sorted_by_key_perm. apply found_perm. exact Hperm.
Qed.

Lemma basename_from_slash cur a b :
  basename_from cur (a +:+ String "/" b) = basename_from "" b.
Proof.
  revert cur. induction a as [| c a IH]; intros cur; [reflexivity |].
  rewrite string_app_cons. simpl. destruct (Ascii.eqb c "/"); apply IH.
Qed.

Lemma ends_with_slash dir :
  ends_with "/" dir = true -> exists a, dir = a +:+ "/".
Proof.
  induction dir as [| c r IH]; simpl.
  - discriminate.
  - intros H. apply orb_true_iff in H as [H | H].
    + change (String.eqb (String c r) "/" = true) in H.
      apply String.eqb_eq in H. exists "". exact H.
    + destruct (IH H) as [a ->]. exists (String c a). reflexivity.
Qed.

(** X5: the sort key of a directory entry does not depend on the directory:
    for a plain file name (a name that is its own basename) the key of the
    joined path is the key of the name. *)
Theorem numeric_key_path_join (images_dir name : string) :
  basename name = name ->
  numeric_key (path_join images_dir name) = numeric_key name.
Proof.
  intros Hname.
  assert (Hbase : basename (path_join images_dir name) = basename name).
  { unfold basename, path_join.
    destruct (String.eqb images_dir "") eqn:Hempty.
    - apply String.eqb_eq in Hempty. subst. reflexivity.
    - destruct (ends_with "/" images_dir) eqn:Hends; cbn [orb].
      + destruct (ends_with_slash images_dir Hends) as [a ->].
        rewrite string_app_assoc. apply basename_from_slash.
      + apply basename_from_slash. }
  unfold numeric_key. rewrite Hbase. reflexivity.
Qed.

Lemma basename_path_join images_dir name :
  basename (path_join images_dir name) = basename name.
Proof.
  unfold basename, path_join.
  destruct (String.eqb images_dir "") eqn:Hempty.
  - apply String.eqb_eq in Hempty. subst. reflexivity.
  - destruct (ends_with "/" images_dir) eqn:Hends; cbn [orb].
    + destruct (ends_with_slash images_dir Hends) as [a ->].
      rewrite string_app_assoc. apply basename_from_slash.
    + apply basename_from_slash.
Qed.

Lemma rfind_dot_app stem ext :
  rfind_dot ext = Some 0 ->
  rfind_dot (stem +:+ ext) = Some (String.length stem).
Proof.
  intros Hext. induction stem as [| c stem IH]; [exact Hext |].
  rewrite string_app_cons. simpl. rewrite IH. reflexivity.
Qed.

Lemma substring_app stem ext :
  substring 0 (String.length stem) (stem +:+ ext) = stem.
Proof.
  induction stem as [| c stem IH]; simpl.
  - destruct ext; reflexivity.
  - rewrite IH. reflexivity.
Qed.

(** [os.path.splitext] takes an extension off a name that has more than dots
    in front of it. *)
Lemma splitext_root_ext stem ext :
  rfind_dot ext = Some 0 -> all_dots stem = false ->
  splitext_root (stem +:+ ext) = stem.
Proof.
  intros Hext Hstem. unfold splitext_root.
  rewrite rfind_dot_app by exact Hext. rewrite substring_app, Hstem.
  reflexivity.
Qed.

Abbreviation path_le := (fun p q : string => key_le (numeric_key p) (numeric_key q)).

(** C4, as the code has it: [load_image_paths] returns the paths that the six
    patterns find, ordered by the key (number of the first digit run of the
    file name without its extension, that name in lower case): numbers
    ascending, names without a digit run after all numbered ones and ordered
    by their lowered name. The extension is no part of the key, so paths that
    differ in it alone keep the order found, pattern by pattern.
    [img2.png, img10.png, imgA.png, img1.png] come out as [img1, img2, img10,
    imgA]. *)
Theorem load_image_paths_order (glob : string -> list string) (images_dir : string) :
  let found :=
    concat (map (fun pattern => glob (path_join images_dir pattern))
                ["*.png"; "*.jpg"; "*.jpeg"; "*.PNG"; "*.JPG"; "*.JPEG"]) in
  let paths := load_image_paths glob images_dir in
  Permutation paths found /\
  StronglySorted path_le paths /\
  (forall k,
     List.filter (fun p => bool_decide (numeric_key p = k)) paths
     = List.filter (fun p => bool_decide (numeric_key p = k)) found) /\
  (forall dir stem ext,
     In ext [".png"; ".jpg"; ".jpeg"; ".PNG"; ".JPG"; ".JPEG"] ->
     basename (stem +:+ ext) = stem +:+ ext ->
     all_dots stem = false ->
     numeric_key (path_join dir (stem +:+ ext))
     = (match first_digit_run stem with
        | Some ds => Finite (int_of_digits ds)
        | None => Infinity
        end, lower stem)) /\
  (forall p q,
     path_le p q
     <-> num_ltb (fst (numeric_key p)) (fst (numeric_key q)) = true \/
         (fst (numeric_key p) = fst (numeric_key q) /\
          String.le (snd (numeric_key p)) (snd (numeric_key q)))) /\
  (forall n, num_ltb (Finite n) Infinity = true) /\
  (forall i j p q,
     paths !! i = Some p -> paths !! j = Some q ->
     fst (numeric_key p) = Infinity -> fst (numeric_key q) <> Infinity ->
     j < i) /\
  numeric_key "images/IMG_Cover-2.PNG" = (Finite 2, "img_cover-2") /\
  numeric_key "images/page 007b12.jpeg" = (Finite 7, "page 007b12") /\
  load_image_paths
    (Example.glob ["img2.png"; "img10.png"; "imgA.png"; "img1.png"]) "images"
  = ["images/img1.png"; "images/img2.png"; "images/img10.png";
     "images/imgA.png"] /\
  load_image_paths (Example.glob ["Zebra.png"; "apple.png"; "Bear.JPG"]) "images"
  = ["images/apple.png"; "images/Bear.JPG"; "images/Zebra.png"] /\
  load_image_paths (Example.glob ["img1.jpg"; "img1.png"; "IMG1.jpeg"]) "images"
  = ["images/img1.png"; "images/img1.jpg"; "images/IMG1.jpeg"].
Proof.
  intros found paths.
  split; [apply sorted_by_key_perm |].
  split; [apply sorted_by_key_sorted |].
  split; [intros k; apply sorted_by_key_stable |].
  split.
  { intros dir stem ext Hext Hbase Hstem. unfold numeric_key.
    rewrite basename_path_join, Hbase.
    rewrite splitext_root_ext; [| | exact Hstem].
    - destruct (first_digit_run stem); reflexivity.
    - destruct Hext as [<- | [<- | [<- | [<- | [<- | [<- | []]]]]]];
        reflexivity. }
  split.
  { intros p q. destruct (numeric_key p) as [a s], (numeric_key q) as [b t].
    apply key_le_spec. }
  split; [reflexivity |].
  split; [| repeat apply conj; reflexivity].
  intros i j p q Hi Hj Hp Hq.
  destruct (Nat.lt_trichotomy i j) as [Hlt | [-> | Hgt]]; [| | exact Hgt].
  - pose proof (StronglySorted_lookup_lt path_le paths
                  (sorted_by_key_sorted found) i j p q Hi Hj Hlt) as Hle.
    cbv beta in Hle.
    destruct (numeric_key p) as [a s], (numeric_key q) as [b t].
    cbn [fst] in Hp, Hq. subst a.
    apply key_le_spec in Hle as [Hlt' | [Heq _]].
    + discriminate Hlt'.
    + congruence.
  - rewrite Hi in Hj. injection Hj as ->. congruence.
Qed.

End ImagesMore.

(** C4 as stated fails: the key holds the name without its extension, so
    [img1.png] and [img1.jpg] have one key and stay in the order found, the
    matches of [*.png] first; by the lowercased file name [img1.jpg] comes
    before [img1.png]. *)
Lemma extension_order_counterexample :
  let paths :=
    Images.load_image_paths (Example.glob ["img1.jpg"; "img1.png"]) "images" in
  let spec_le :=
    fun p q => Images.key_le (Images.spec_key p) (Images.spec_key q) in
  paths = ["images/img1.png"; "images/img1.jpg"] /\
  Images.key_ltb (Images.spec_key "images/img1.jpg")
    (Images.spec_key "images/img1.png") = true /\
  ~ StronglySorted spec_le paths.
Proof.
  intros paths spec_le.
  assert (Hpaths : paths = ["images/img1.png"; "images/img1.jpg"])
    by reflexivity.
  split; [exact Hpaths |]. split; [reflexivity |].
  rewrite Hpaths. intros Hs.
  inversion Hs as [| ? ? _ Hall]; subst.
  inversion Hall as [| ? ? Hle _]; subst.
  vm_compute in Hle. discriminate Hle.
Qed.

Lemma load_image_paths_listing_order_witness :
  Images.load_image_paths
    (Example.glob ["img2.png"; "img10.png"; "imgA.png"; "img1.png"]) "images"
  = Images.load_image_paths
      (Example.glob ["img1.png"; "imgA.png"; "img10.png"; "img2.png"]) "images".
Proof.
  apply load_image_paths_listing_order.
  - intros pattern. unfold Example.glob.
    destruct (Example.without_prefix "images/*" pattern); [| reflexivity].
    apply Permutation_map, filter_perm.
    apply (Permutation_rev ["img2.png"; "img10.png"; "imgA.png"; "img1.png"]).
  - intros p q Hp Hq.
    vm_compute in Hp, Hq.
    destruct Hp as [<- | [<- | [<- | [<- | []]]]];
      destruct Hq as [<- | [<- | [<- | [<- | []]]]];
      intros Hkey; try reflexivity; vm_compute in Hkey; discriminate Hkey.
Defined.

Lemma numeric_key_path_join_witness :
  Images.numeric_key (Images.path_join "images" "img10.png")
  = Images.numeric_key "img10.png".
Proof. apply numeric_key_path_join. reflexivity. Defined.

(** ** More on the composed page text *)

Section TextMore.
Import Text.

(** X6: [split_into_sentences] returns no empty sentence and no sentence that
    starts with white space. *)
Theorem split_into_sentences_clean (text sentence : string) :
  In sentence (split_into_sentences text) ->
  sentence <> "" /\ starts_with_space sentence = false.
Proof.
  unfold split_into_sentences. intros Hin.
  apply filter_In in Hin as [Hin Hne]. split.
  - intros ->. discriminate Hne.
  - pose proof (re_split_leading (strip text) false) as Hlead.
    destruct (re_split false (strip text)) as [| p ps]; [destruct Hin |].
    destruct Hlead as [Hps Hp]. destruct Hin as [<- | Hin].
    + apply Hp. right.
      destruct (strip_spec text) as [-> | (c & r & -> & Hc)];
        [reflexivity | exact Hc].
    + rewrite Forall_forall in Hps. apply Hps.
      apply list_elem_of_In. exact Hin.
Qed.

Lemma split_blank_blank s :
  lstrip s = "" -> Forall (fun p => lstrip p = "") (split_blank s).
Proof.
  assert (H : (lstrip s = "" -> Forall (fun p => lstrip p = "") (split_blank s)) /\
              forall c, lstrip (String c s) = "" ->
                        Forall (fun p => lstrip p = "") (split_blank (String c s))).
  { induction s as [| c2 r [IH1 IH2]].
    - split; [intros _; repeat constructor |].
      intros c Hc.
      assert (Hsp : is_space c = true).
      { simpl in Hc. destruct (is_space c); [reflexivity | discriminate]. }
      simpl. constructor; [simpl; rewrite Hsp; reflexivity | constructor].
    - split; [apply IH2 |]. intros c1 Hc1.
      change (split_blank (String c1 (String c2 r)))
        with (if Ascii.eqb c1 newline && Ascii.eqb c2 newline
              then "" :: split_blank r
              else cons_head c1 (split_blank (String c2 r))).
      assert (Hsp1 : is_space c1 = true).
      { simpl in Hc1. destruct (is_space c1); [reflexivity | discriminate]. }
      assert (Hrest : lstrip (String c2 r) = "").
      { simpl in Hc1. rewrite Hsp1 in Hc1. exact Hc1. }
      destruct (Ascii.eqb c1 newline && Ascii.eqb c2 newline).
      + constructor; [reflexivity |]. apply IH1.
        simpl in Hrest. destruct (is_space c2); [exact Hrest | discriminate].
      + pose proof (IH2 c2 Hrest) as Hall.
        destruct (split_blank (String c2 r)) as [| p ps]; simpl.
        * repeat constructor. simpl. rewrite Hsp1. reflexivity.
        * inversion Hall as [| ? ? Hp Hps]; subst.
          constructor; [| exact Hps]. simpl. rewrite Hsp1. exact Hp. }
  apply H.
Qed.

(** X7: a page text that holds white space only, or nothing, composes to the
    empty block. *)
Theorem html_text_blank (page_text : string) :
  lstrip page_text = "" -> html_text page_text = "".
Proof.
  intros Hblank.
  assert (Hchunks : raw_chunks page_text = []).
  { unfold raw_chunks.
    pose proof (split_blank_blank page_text Hblank) as Hall.
    induction (split_blank page_text) as [| p ps IH]; [reflexivity |].
    inversion Hall as [| ? ? Hp Hps]; subst. cbn [List.filter].
    assert (Hstrip : strip p = "") by (unfold strip; rewrite Hp; reflexivity).
    rewrite Hstrip. cbn [nonempty String.eqb negb]. apply IH. exact Hps. }
  unfold html_text. rewrite Hchunks. reflexivity.
Qed.

End TextMore.

Lemma split_into_sentences_clean_witness :
  "World." <> "" /\ Text.starts_with_space "World." = false.
Proof.
  apply (split_into_sentences_clean "  Hello.   World. " "World.").
  vm_compute. right. left. reflexivity.
Defined.

Lemma html_text_blank_witness :
  Text.html_text (String " " (String Text.newline (String Text.newline " "))) = "".
Proof. apply html_text_blank. reflexivity. Defined.

(** ** More on the text fitter *)

Section FitterMore.
Import Fitter.
Variable wrap : string -> ParagraphStyle -> Q -> Q -> Q * Q.
Variable html_text : string.
Variable base_style : ParagraphStyle.
Variables max_width : Q.

(** X8: the paragraph that [create_fitting_paragraph] returns is the one at
    the returned size: it carries the text, font size [size], leading
    [size + 4] and the other attributes of the base style, also when nothing
    fitted; when [min_font_size > base_font_size] the pair is
    [(None, min_font_size)]. *)
Theorem create_fitting_paragraph_result max_height min_font_size base_font_size :
  let result :=
    create_fitting_paragraph wrap html_text base_style max_width max_height
      min_font_size base_font_size in
  ((min_font_size <= base_font_size)%Z ->
   exists style,
     fst result = Some (Paragraph html_text style) /\
     fontSize style = snd result /\
     leading style = (snd result + 4)%Z /\
     fontName style = fontName base_style /\
     alignment style = alignment base_style /\
     textColor style = textColor base_style) /\
  ((base_font_size < min_font_size)%Z -> result = (None, min_font_size)).
Proof.
  intros result. subst result. unfold create_fitting_paragraph. split.
  - intros Hle.
    pose proof (fit_loop_spec wrap html_text base_style max_width max_height
                  min_font_size _ base_font_size None eq_refl Hle) as Hspec.
    destruct (fit_loop _ _ _ _ _ _ base_font_size None) as [para chosen].
    destruct Hspec as (_ & -> & _).
    exists (sized_style base_style chosen). repeat split.
  - intros Hlt. apply fit_loop_not_entered. exact Hlt.
Qed.

(** X9: with more room the fitter never picks a smaller size. When the
    height a paragraph takes does not depend on the height on offer, a larger
    usable height gives a size at least as large. *)
Theorem create_fitting_paragraph_monotone
    (height1 height2 : Q) (min_font_size base_font_size : Z) :
  (forall style h h',
     snd (wrap html_text style max_width h)
     == snd (wrap html_text style max_width h'))%Q ->
  (height1 <= height2)%Q ->
  (min_font_size <= base_font_size)%Z ->
  (snd (create_fitting_paragraph wrap html_text base_style max_width height1
          min_font_size base_font_size)
   <= snd (create_fitting_paragraph wrap html_text base_style max_width height2
             min_font_size base_font_size))%Z.
Proof.
  intros Hwrap Hheight Hle. unfold create_fitting_paragraph.
  pose proof (fit_loop_spec wrap html_text base_style max_width height1
                min_font_size _ base_font_size None eq_refl Hle) as Hspec1.
  pose proof (fit_loop_spec wrap html_text base_style max_width height2
                min_font_size _ base_font_size None eq_refl Hle) as Hspec2.
  destruct (fit_loop _ _ _ _ height1 _ base_font_size None) as [para1 size1].
  destruct (fit_loop _ _ _ _ height2 _ base_font_size None) as [para2 size2].
  destruct Hspec1 as (Hrange1 & _ & Hcases1).
  destruct Hspec2 as (Hrange2 & _ & Hcases2).
  cbn [snd].
  destruct Hcases1 as [[Hfit1 _] | [-> _]]; [| lia].
  assert (Hfit2 : Fitter.fits wrap html_text base_style max_width height2 size1).
  { unfold Fitter.fits in *.
    rewrite (Hwrap (sized_style base_style size1) height2 height1).
    eapply Qle_trans; eassumption. }
  destruct Hcases2 as [[_ Hlarger] | [_ Hnone]].
  - destruct (Z_le_gt_dec size1 size2) as [Hok | Hgt]; [exact Hok |].
    destruct (Hlarger size1 ltac:(lia) Hfit2).
  - destruct (Hnone size1 Hrange1 Hfit2).
Qed.

End FitterMore.

Lemma create_fitting_paragraph_result_witness :
  exists style,
    fst (Fitter.create_fitting_paragraph Example.wrap
           "0123456789012345678901234567890123456789"
           Assembler.title_style 100 300 10 20)
    = Some (Paragraph "0123456789012345678901234567890123456789" style) /\
    fontSize style = 15%Z.
Proof.
  destruct (proj1 (create_fitting_paragraph_result Example.wrap
                     "0123456789012345678901234567890123456789"
                     Assembler.title_style 100 300 10 20))
    as (style & Hpara & Hsize & _).
  - lia.
  - exists style. split; [exact Hpara | exact Hsize].
Defined.

Lemma create_fitting_paragraph_monotone_witness :
  (snd (Fitter.create_fitting_paragraph Example.wrap
          "0123456789012345678901234567890123456789"
          Assembler.title_style 100 200 10 20)
   <= snd (Fitter.create_fitting_paragraph Example.wrap
             "0123456789012345678901234567890123456789"
             Assembler.title_style 100 300 10 20))%Z.
Proof.
  apply create_fitting_paragraph_monotone.
  - intros style h h'. reflexivity.
  - discriminate.
  - lia.
Defined.

(** ** More on the assembler *)

Section AssemblerMore.
Import Assembler.
Variable image_mean : string -> outcome (float * float * float).
Variable wrap : string -> ParagraphStyle -> Q -> Q -> Q * Q.
Variable image_size : string -> outcome (Z * Z).
Variable image_paths : list string.
Variable lay_out : Frame -> list Flowable -> outcome (list (list Flowable)).

Abbreviation closed := (fun content : list Flowable => content ++ [PageBreak]).

(** What a text page holds: the centring spacer and the fitted paragraph of
    manuscript page [i]. *)
Abbreviation text_page body_base font_size uw uh i page_text flowables :=
  (exists style,
     flowables
     = [Spacer 1 (top_space uh (snd (wrap (Text.html_text page_text) style uw uh)));
        Paragraph (Text.html_text page_text) style] /\
     (5 <= fontSize style <= font_size)%Z /\
     leading style = (fontSize style + 4)%Z /\
     fontName style = fontName body_base /\
     alignment style = alignment body_base /\
     match image_paths !! i with
     | Some path =>
         Sampler.text_color_for_image image_mean path Sampler.default_threshold
         = Returns (textColor style)
     | None => textColor style = Sampler.black
     end).

Lemma page_step_detail body_base font_size pw ph uw uh story idx page_text :
  (5 <= font_size)%Z ->
  (forall path, image_paths !! idx = Some path ->
                exists sz, image_size path = Returns sz) ->
  exists flowables partner,
    page_step image_mean wrap image_size image_paths body_base font_size
      pw ph uw uh (story, idx) page_text
    = Returns (story ++ closed flowables ++ closed partner,
               if Nat.ltb idx (length image_paths) then idx + 1 else idx) /\
    text_page body_base font_size uw uh idx page_text flowables /\
    Forall (fun f => f <> PageBreak) partner.
Proof.
  intros Hsize Hread. unfold page_step.
  pose proof (fun sty => fit_loop_spec wrap (Text.html_text page_text) sty uw uh 5
                _ font_size None eq_refl Hsize) as Hfit.
  unfold Fitter.create_fitting_paragraph.
  destruct (Nat.ltb idx (length image_paths)) eqn:Hlt.
  - apply Nat.ltb_lt in Hlt. apply lookup_lt_is_Some in Hlt as [path Hpath].
    rewrite Hpath.
    destruct (text_color_for_image_returns image_mean path
                Sampler.default_threshold) as [c Hc].
    rewrite Hc. cbn. set (page_style := mkStyle "BodyPage" _ _ _ _ c).
    specialize (Hfit page_style).
    destruct (Fitter.fit_loop _ _ _ _ _ _ font_size None) as [para chosen].
    destruct Hfit as (Hrange & -> & _).
    destruct (Hread path Hpath) as [[imgw imgh] Hsz].
    unfold new_FullPageImage. rewrite Hsz. cbn.
    exists [Spacer 1 (top_space uh (snd (wrap (Text.html_text page_text)
                                         (Fitter.sized_style page_style chosen)
                                         uw uh)));
            Paragraph (Text.html_text page_text)
              (Fitter.sized_style page_style chosen)],
      [FullPageImage path pw ph imgw imgh].
    split; [rewrite <- !app_assoc; reflexivity |].
    split; [| repeat constructor; discriminate].
    exists (Fitter.sized_style page_style chosen).
    split; [reflexivity |]. split; [exact Hrange |]. repeat split.
  - apply Nat.ltb_ge in Hlt. rewrite (lookup_ge_None_2 _ _ Hlt).
    cbn. set (page_style := mkStyle "BodyPage" _ _ _ _ Sampler.black).
    specialize (Hfit page_style).
    destruct (Fitter.fit_loop _ _ _ _ _ _ font_size None) as [para chosen].
    destruct Hfit as (Hrange & -> & _).
    exists [Spacer 1 (top_space uh (snd (wrap (Text.html_text page_text)
                                         (Fitter.sized_style page_style chosen)
                                         uw uh)));
            Paragraph (Text.html_text page_text)
              (Fitter.sized_style page_style chosen)], [].
    split; [rewrite <- !app_assoc; reflexivity |].
    split; [| constructor].
    exists (Fitter.sized_style page_style chosen).
    split; [reflexivity |]. split; [exact Hrange |]. repeat split.
Qed.

Lemma page_loop_detail body_base font_size pw ph uw uh :
  (5 <= font_size)%Z ->
  forall texts story k,
  (forall i path, i < length texts -> image_paths !! (k + i) = Some path ->
                  exists sz, image_size path = Returns sz) ->
  exists segs,
    page_loop image_mean wrap image_size image_paths body_base font_size
      pw ph uw uh (story, k `min` length image_paths) texts
    = Returns (story ++ concat (map closed segs),
               (k + length texts) `min` length image_paths) /\
    Forall (Forall (fun f => f <> PageBreak)) segs /\
    length segs = 2 * length texts /\
    forall i page_text, texts !! i = Some page_text ->
      exists flowables,
        segs !! (2 * i) = Some flowables /\
        text_page body_base font_size uw uh (k + i) page_text flowables.
Proof.
  intros Hsize. induction texts as [| page_text rest IH]; intros story k Hread.
  - exists []. simpl. rewrite app_nil_r, Nat.add_0_r.
    split; [reflexivity |]. split; [constructor |]. split; [reflexivity |].
    intros i t Hi. rewrite lookup_nil in Hi. discriminate.
  - rewrite page_loop_cons.
    assert (Hidx : image_paths !! (k `min` length image_paths) = image_paths !! k).
    { destruct (Nat.le_gt_cases (length image_paths) k) as [Hge | Hlt].
      - rewrite Nat.min_r by exact Hge.
        rewrite !lookup_ge_None_2 by lia. reflexivity.
      - rewrite Nat.min_l by lia. reflexivity. }
    destruct (page_step_detail body_base font_size pw ph uw uh story
                (k `min` length image_paths) page_text Hsize)
      as (flowables & partner & Hstep & Htext & Hpartner).
    { intros path Hpath. rewrite Hidx in Hpath.
      apply (Hread 0 path); [simpl; lia | rewrite Nat.add_0_r; exact Hpath]. }
    rewrite Hstep.
    assert (Hnext : (if Nat.ltb (k `min` length image_paths) (length image_paths)
                     then k `min` length image_paths + 1
                     else k `min` length image_paths)
                    = S k `min` length image_paths).
    { destruct (Nat.ltb _ _) eqn:Hlt;
        [apply Nat.ltb_lt in Hlt | apply Nat.ltb_ge in Hlt]; lia. }
    rewrite Hnext.
    destruct (IH (story ++ closed flowables ++ closed partner) (S k))
      as (segs & Hloop & Hnb & Hlen & Hsegs).
    { intros i path Hi Hpath. apply (Hread (S i) path); [simpl; lia |].
      rewrite <- Nat.add_succ_comm. exact Hpath. }
    rewrite Hloop. exists (flowables :: partner :: segs).
    split; [| split; [| split]].
    + replace (k + length (page_text :: rest)) with (S k + length rest)
        by (simpl; lia).
      cbn [map concat]. rewrite <- !app_assoc. reflexivity.
    + constructor; [| constructor; [exact Hpartner | exact Hnb]].
      destruct Htext as (style & -> & _). repeat constructor; discriminate.
    + simpl. rewrite Hlen. lia.
    + intros [| i] t Hi; simpl in Hi.
      * injection Hi as <-. exists flowables. split; [reflexivity |].
        rewrite Nat.add_0_r, <- Hidx. exact Htext.
      * destruct (Hsegs i t Hi) as (fl & Hfl & Hpage).
        exists fl. replace (2 * S i) with (S (S (2 * i))) by lia.
        replace (k + S i) with (S k + i) by lia.
        split; [exact Hfl | exact Hpage].
Qed.

(** The story in full: the runs of the title page and of the manuscript
    pages, with the text page of every manuscript page. *)
Lemma book_story_detail manuscript font_size margin_inch
    page_width_inch page_height_inch :
  (5 <= font_size)%Z ->
  (forall i path, i < length (pages manuscript) ->
                  image_paths !! i = Some path ->
                  exists sz, image_size path = Returns sz) ->
  let t := if has_title manuscript then 1 else 0 in
  let pw := (page_width_inch * inch)%Q in
  let ph := (page_height_inch * inch)%Q in
  let uw := (pw - 2 * (margin_inch * inch))%Q in
  let uh := (ph - 2 * (margin_inch * inch))%Q in
  let body_base :=
    mkStyle "BodyBase" "Helvetica" font_size (font_size + 4)%Z TA_CENTER
      Sampler.black in
  exists title_pages segs,
    book_story image_mean wrap image_size image_paths manuscript
      font_size margin_inch page_width_inch page_height_inch
    = Returns (concat (map closed (title_pages ++ segs))) /\
    Forall (Forall (fun f => f <> PageBreak)) (title_pages ++ segs) /\
    length title_pages = t /\
    length segs = 2 * length (pages manuscript) /\
    forall i page_text, pages manuscript !! i = Some page_text ->
      exists flowables,
        segs !! (2 * i) = Some flowables /\
        text_page body_base font_size uw uh i page_text flowables.
Proof.
  intros Hsize Hread t pw ph uw uh body_base. unfold book_story.
  fold pw ph. fold uw uh. fold body_base.
  set (story := if has_title manuscript then _ else []).
  assert (Hstory : exists title_pages,
             story = concat (map closed title_pages) /\
             Forall (Forall (fun f => f <> PageBreak)) title_pages /\
             length title_pages = t).
  { subst story t. destruct (has_title manuscript).
    - destruct (title_story_closed wrap (default "" (title manuscript))
                  (default "" (author manuscript)) uw uh)
        as (sp & rest & Heq & Hnb).
      exists [Spacer 1 sp :: Paragraph (default "" (title manuscript)) title_style
                :: rest].
      split; [rewrite Heq; simpl; rewrite app_nil_r; reflexivity |].
      split; [constructor; [exact Hnb | constructor] | reflexivity].
    - exists []. split; [reflexivity |]. split; [constructor | reflexivity]. }
  destruct Hstory as (title_pages & Hstory & Hnb_title & Hlen_title).
  destruct (page_loop_detail body_base font_size pw ph uw uh Hsize
              (pages manuscript) story 0 Hread)
    as (segs & Hloop & Hnb & Hlen & Hsegs).
  change (0 `min` length image_paths) with 0 in Hloop.
  rewrite Hloop, bind_Returns.
  exists title_pages, segs.
  split; [rewrite Hstory, map_app, concat_app; reflexivity |].
  split; [apply Forall_app; split; assumption |].
  split; [exact Hlen_title | split; [exact Hlen | exact Hsegs]].
Qed.

(** The built document in full, when every run of the story takes one page:
    its pages, what the page callback painted on each, and the text page of
    every manuscript page. *)
Lemma build_inner_book_detail manuscript font_size margin_inch
    page_width_inch page_height_inch :
  (5 <= font_size)%Z ->
  (forall i path, i < length (pages manuscript) ->
                  image_paths !! i = Some path ->
                  exists sz, image_size path = Returns sz) ->
  one_page_each image_mean wrap image_size image_paths lay_out manuscript
    font_size margin_inch page_width_inch page_height_inch ->
  let t := if has_title manuscript then 1 else 0 in
  let pw := (page_width_inch * inch)%Q in
  let ph := (page_height_inch * inch)%Q in
  let uw := (pw - 2 * (margin_inch * inch))%Q in
  let uh := (ph - 2 * (margin_inch * inch))%Q in
  let body_base :=
    mkStyle "BodyBase" "Helvetica" font_size (font_size + 4)%Z TA_CENTER
      Sampler.black in
  exists (doc : list Page) (page_to_image_index : gmap nat nat),
    build_inner_book image_mean wrap image_size image_paths lay_out manuscript
      font_size margin_inch page_width_inch page_height_inch = Returns doc /\
    length doc = t + 2 * length (pages manuscript) /\
    (forall page_num img_idx,
       page_to_image_index !! page_num = Some img_idx
       <-> img_idx < length (pages manuscript) /\
           img_idx < length image_paths /\
           page_num = S t + 2 * img_idx) /\
    (forall k pg, doc !! k = Some pg ->
       on_page image_mean image_paths page_to_image_index pw ph (S k)
       = Returns (background pg)) /\
    (forall i page_text, pages manuscript !! i = Some page_text ->
       exists pg,
         doc !! (t + 2 * i) = Some pg /\
         text_page body_base font_size uw uh i page_text (content pg)).
Proof.
  intros Hsize Hread Hfit t pw ph uw uh body_base.
  destruct (book_story_detail manuscript font_size margin_inch
              page_width_inch page_height_inch Hsize Hread)
    as (title_pages & segs & Hstory & Hnb & Hlen_title & Hlen & Hsegs).
  fold t in Hlen_title. fold pw ph uw uh body_base in Hsegs.
  unfold build_inner_book.
  destruct (plan_spec (has_title manuscript) (length (pages manuscript))
              (length image_paths)) as (page_to_image_index & Hplan & Hiff).
  rewrite Hplan, Hstory, bind_Returns. fold pw ph.
  rewrite (build_one_page_each lay_out); [| exact Hnb |].
  2:{ intros run Hin Hne. apply (Hfit _ run Hstory); [| exact Hne].
      rewrite runs_closed by exact Hnb. exact Hin. }
  destruct (build_from_ok
              (on_page image_mean image_paths page_to_image_index pw ph)
              (on_page_returns image_mean image_paths page_to_image_index pw ph)
              (title_pages ++ segs) 1)
    as (doc & Hbuild & Hpages & Hback).
  rewrite Hbuild.
  exists doc, page_to_image_index. split; [reflexivity |]. split; [| split; [| split]].
  - rewrite <- (length_map content doc), Hpages, length_app, Hlen_title, Hlen.
    reflexivity.
  - intros page_num img_idx. rewrite Hiff. subst t.
    destruct (has_title manuscript); reflexivity.
  - intros k pg Hk. apply (Hback k pg Hk).
  - intros i page_text Hi. destruct (Hsegs i page_text Hi) as (fl & Hfl & Hpage).
    assert (Hlook : map content doc !! (t + 2 * i) = Some fl).
    { rewrite Hpages, lookup_app_r by lia.
      replace (t + 2 * i - length title_pages) with (2 * i) by lia. exact Hfl. }
    change (map content doc) with (content <$> doc) in Hlook.
    rewrite list_lookup_fmap in Hlook.
    destruct (doc !! (t + 2 * i)) as [pg |] eqn:Hpg; [| discriminate].
    injection Hlook as <-. exists pg. split; [reflexivity | exact Hpage].
Qed.

(** X10: when reportlab places every run of the story on one page, every
    manuscript page gets a text page whose paragraph is set in centred
    Helvetica at a size between 5 and the base font size, with leading four
    points above the size, in the colour sampled from the image paired with
    the page, or in black when the images have run out. The texts are taken
    to hold no markup of their own. *)
Theorem text_pages_style manuscript font_size margin_inch
    page_width_inch page_height_inch :
  (5 <= font_size)%Z ->
  (forall i path, i < length (pages manuscript) ->
                  image_paths !! i = Some path ->
                  exists sz, image_size path = Returns sz) ->
  markup_free manuscript ->
  one_page_each image_mean wrap image_size image_paths lay_out manuscript
    font_size margin_inch page_width_inch page_height_inch ->
  exists doc,
    build_inner_book image_mean wrap image_size image_paths lay_out manuscript
      font_size margin_inch page_width_inch page_height_inch = Returns doc /\
    forall i page_text, pages manuscript !! i = Some page_text ->
      exists pg sp style,
        doc !! ((if has_title manuscript then 1 else 0) + 2 * i) = Some pg /\
        content pg = [Spacer 1 sp; Paragraph (Text.html_text page_text) style] /\
        (5 <= fontSize style <= font_size)%Z /\
        leading style = (fontSize style + 4)%Z /\
        fontName style = "Helvetica" /\
        alignment style = TA_CENTER /\
        match image_paths !! i with
        | Some path =>
            Sampler.text_color_for_image image_mean path Sampler.default_threshold
            = Returns (textColor style)
        | None => textColor style = Sampler.black
        end.
Proof.
  intros Hsize Hread _ Hfit.
  destruct (build_inner_book_detail manuscript font_size margin_inch
              page_width_inch page_height_inch Hsize Hread Hfit)
    as (doc & _ & Hdoc & _ & _ & _ & Htext).
  exists doc. split; [exact Hdoc |]. intros i page_text Hi.
  destruct (Htext i page_text Hi)
    as (pg & Hpg & style & Hcontent & Hrange & Hlead & Hname & Halign & Hcolor).
  eexists pg, _, style. split; [exact Hpg |]. split; [exact Hcontent |].
  split; [exact Hrange |]. split; [exact Hlead |]. split; [exact Hname |].
  split; [exact Halign | exact Hcolor].
Qed.

(** X12: when reportlab places every run of the story on one page, the
    background wash goes on the text pages that have an image, and nowhere
    else. The text page of manuscript page [i] is filled with the mean colour
    of image [i] when that image exists and can be sampled; the title page,
    the image pages, the blank pages and the text pages beyond the last image
    are not painted. The texts are taken to hold no markup of their own. *)
Theorem background_wash manuscript font_size margin_inch
    page_width_inch page_height_inch :
  (5 <= font_size)%Z ->
  (forall i path, i < length (pages manuscript) ->
                  image_paths !! i = Some path ->
                  exists sz, image_size path = Returns sz) ->
  markup_free manuscript ->
  one_page_each image_mean wrap image_size image_paths lay_out manuscript
    font_size margin_inch page_width_inch page_height_inch ->
  let t := if has_title manuscript then 1 else 0 in
  exists doc,
    build_inner_book image_mean wrap image_size image_paths lay_out manuscript
      font_size margin_inch page_width_inch page_height_inch = Returns doc /\
    forall k pg, doc !! k = Some pg ->
      (forall i path,
         k = t + 2 * i -> i < length (pages manuscript) ->
         image_paths !! i = Some path ->
         match Sampler.color_from_image image_mean path with
         | Returns (Some c) =>
             background pg
             = [saveState; setFillColor c;
                rect 0 0 (page_width_inch * inch) (page_height_inch * inch) 0 1;
                restoreState]
         | _ => background pg = []
         end) /\
      ((forall i, i < length (pages manuscript) -> i < length image_paths ->
                  k <> t + 2 * i) ->
       background pg = []).
Proof.
  intros Hsize Hread _ Hfit t.
  destruct (build_inner_book_detail manuscript font_size margin_inch
              page_width_inch page_height_inch Hsize Hread Hfit)
    as (doc & plan_map & Hdoc & _ & Hplan & Hback & _).
  exists doc. split; [exact Hdoc |]. intros k pg Hk.
  specialize (Hback k pg Hk). unfold on_page in Hback. split.
  - intros i path -> Hi Hpath.
    assert (Hlt : i < length image_paths) by (apply lookup_lt_is_Some; eauto).
    assert (Hlook : plan_map !! S (t + 2 * i) = Some i).
    { apply Hplan. split; [exact Hi |]. split; [exact Hlt |]. subst t. lia. }
    rewrite Hlook in Hback. apply Nat.ltb_lt in Hlt.
    rewrite Hlt, Hpath in Hback.
    destruct (Sampler.color_from_image image_mean path) as [[c |] | e];
      cbn in Hback.
    + apply Returns_inj in Hback. symmetry. exact Hback.
    + apply Returns_inj in Hback. symmetry. exact Hback.
    + discriminate Hback.
  - intros Hnot. destruct (plan_map !! S k) as [img_idx |] eqn:Hlook.
    + apply Hplan in Hlook as (Hi & Him & Heq).
      destruct (Hnot img_idx Hi Him). subst t. lia.
    + apply Returns_inj in Hback. symmetry. exact Hback.
Qed.

End AssemblerMore.

Lemma text_pages_style_witness :
  exists doc pg sp style,
    Example.book = Returns doc /\
    doc !! 1 = Some pg /\
    Assembler.content pg = [Spacer 1 sp; Paragraph "Hello.<br/><br/>World." style] /\
    (5 <= fontSize style <= 20)%Z.
Proof.
  destruct (text_pages_style Example.image_mean Example.wrap
              Example.image_size Example.image_paths Example.lay_out
              Example.manuscript 20 1 (8625 # 1000) (875 # 100))
    as (doc & Hdoc & Hpages).
  - lia.
  - intros i path _ _. exists (100, 200)%Z. reflexivity.
  - exact example_markup_free.
  - exact example_one_page_each.
  - destruct (Hpages 0 "Hello. World." eq_refl)
      as (pg & sp & style & Hpg & Hcontent & Hrange & _).
    exists doc, pg, sp, style.
    split; [exact Hdoc |]. split; [exact Hpg |].
    split; [exact Hcontent | exact Hrange].
Defined.

Lemma background_wash_witness :
  exists doc pg,
    Example.book = Returns doc /\
    doc !! 2 = Some pg /\
    Assembler.background pg = [].
Proof.
  destruct (background_wash Example.image_mean Example.wrap
              Example.image_size Example.image_paths Example.lay_out
              Example.manuscript 20 1 (8625 # 1000) (875 # 100))
    as (doc & Hdoc & Hpages).
  - lia.
  - intros i path _ _. exists (100, 200)%Z. reflexivity.
  - exact example_markup_free.
  - exact example_one_page_each.
  - destruct (doc !! 2) as [pg |] eqn:Hpg.
    + exists doc, pg. split; [exact Hdoc |]. split; [exact Hpg |].
      apply (Hpages 2 pg Hpg). intros i Hi _. simpl in Hi.
      assert (i = 0) as -> by lia. discriminate.
    + exfalso. unfold Example.book in Hdoc. vm_compute in Hdoc.
      apply Returns_inj in Hdoc. subst doc. discriminate Hpg.
Defined.

(** ** More on the merger *)

Section MergerMore.
Import Merger.
Local Open Scope Q_scope.

(** A front-matter page that the merge cannot scale: outside the tolerance
    and without width or without height. *)
Abbreviation degenerate TARGET_W TARGET_H page :=
  (within_tolerance (box_width (mediabox page)) (box_height (mediabox page))
     TARGET_W TARGET_H = false /\
   (box_width (mediabox page) == 0 \/ box_height (mediabox page) == 0)).

Lemma normalize_preface_page_outcome TARGET_W TARGET_H page :
  (degenerate TARGET_W TARGET_H page /\
   normalize_preface_page TARGET_W TARGET_H page = Raises ZeroDivisionError) \/
  (~ degenerate TARGET_W TARGET_H page /\
   exists page',
     normalize_preface_page TARGET_W TARGET_H page = Returns page' /\
     stamped TARGET_W TARGET_H page' /\
     if within_tolerance (box_width (mediabox page)) (box_height (mediabox page))
          TARGET_W TARGET_H
     then transformations page' = transformations page
     else exists t, transformations page' = (transformations page ++ [t])%list).
Proof.
  unfold normalize_preface_page, fit_transformation, py_div.
  set (w := box_width (mediabox page)). set (h := box_height (mediabox page)).
  destruct (within_tolerance w h TARGET_W TARGET_H) eqn:Htol.
  - right. split; [intros [Hf _]; discriminate Hf |].
    eexists. split; [reflexivity |]. split; [apply set_all_boxes_stamped |].
    reflexivity.
  - destruct (Qeq_bool w 0) eqn:Hw0.
    + left. apply Qeq_bool_iff in Hw0. split; [split; [reflexivity | left; exact Hw0] |].
      reflexivity.
    + destruct (Qeq_bool h 0) eqn:Hh0.
      * left. apply Qeq_bool_iff in Hh0.
        split; [split; [reflexivity | right; exact Hh0] |]. reflexivity.
      * right. split.
        -- intros [_ [H0 | H0]]; apply Qeq_bool_iff in H0; congruence.
        -- cbn. eexists. split; [reflexivity |].
           split; [apply set_all_boxes_stamped |]. eexists. reflexivity.
Qed.

Lemma mapM_normalize_outcome TARGET_W TARGET_H front :
  ((exists page, In page front /\ degenerate TARGET_W TARGET_H page) /\
   mapM (normalize_preface_page TARGET_W TARGET_H) front
   = Raises ZeroDivisionError) \/
  ((forall page, In page front -> ~ degenerate TARGET_W TARGET_H page) /\
   exists out,
     mapM (normalize_preface_page TARGET_W TARGET_H) front = Returns out /\
     Forall2 (fun page page' =>
                normalize_preface_page TARGET_W TARGET_H page = Returns page')
             front out).
Proof.
  induction front as [| page front IH].
  - right. split; [intros page []|]. exists []. split; [reflexivity | constructor].
  - cbn [mapM].
    destruct (normalize_preface_page_outcome TARGET_W TARGET_H page)
      as [[Hdeg ->] | [Hok (page' & Hpage & _)]].
    + left. split; [| reflexivity]. exists page. split; [left; reflexivity | exact Hdeg].
    + rewrite Hpage. cbn.
      destruct IH as [[(bad & Hin & Hbad) ->] | [Hall (out & -> & Hout)]].
      * left. split; [| reflexivity]. exists bad. split; [right; exact Hin | exact Hbad].
      * right. split.
        -- intros q [<- | Hq]; [exact Hok | apply Hall; exact Hq].
        -- exists (page' :: out). split; [reflexivity |].
           constructor; [exact Hpage | exact Hout].
Qed.

(** X14: what a successful merge writes. The output holds the front-matter
    pages followed by the body pages, one for one and in order, each with the
    target rectangle in all five boxes; a body page never gets a content
    transformation, whatever its size, and a front-matter page gets one
    exactly when it lies outside the tolerance. *)
Theorem merge_output_pages path_exists PdfReader preface_path inner_book_path
    page_width_inch page_height_inch out :
  merge_preface_and_book path_exists PdfReader preface_path inner_book_path
    page_width_inch page_height_inch = Returns out ->
  let front := PdfReader preface_path in
  let body := PdfReader inner_book_path in
  let TARGET_W := page_width_inch * 72 in
  let TARGET_H := page_height_inch * 72 in
  length out = (length front + length body)%nat /\
  Forall (stamped TARGET_W TARGET_H) out /\
  (forall i page, body !! i = Some page ->
     exists page',
       out !! (length front + i)%nat = Some page' /\
       transformations page' = transformations page) /\
  (forall i page, front !! i = Some page ->
     exists page',
       out !! i = Some page' /\
       if within_tolerance (box_width (mediabox page)) (box_height (mediabox page))
            TARGET_W TARGET_H
       then transformations page' = transformations page
       else exists t, transformations page' = (transformations page ++ [t])%list).
Proof.
  intros Hout front body TARGET_W TARGET_H.
  pose proof (merge_output_stamped _ _ _ _ _ _ _ Hout) as Hstamped.
  unfold merge_preface_and_book in Hout.
  destruct (negb (path_exists preface_path)); [discriminate |].
  destruct (negb (path_exists inner_book_path)); [discriminate |].
  fold front body TARGET_W TARGET_H in Hout.
  destruct (mapM_normalize_outcome TARGET_W TARGET_H front)
    as [[_ Hraise] | [_ (normalized & Hnorm & Hall)]];
    rewrite ?Hraise, ?Hnorm in Hout; cbn in Hout; [discriminate |].
  apply Returns_inj in Hout. subst out.
  pose proof (Forall2_length _ _ _ Hall) as Hlen.
  split; [rewrite length_app, length_map; lia |].
  split; [exact Hstamped |]. split.
  - intros i page Hi. exists (normalize_inner_page TARGET_W TARGET_H page).
    split; [| reflexivity].
    rewrite lookup_app_r by lia.
    replace (length front + i - length normalized)%nat with i by lia.
    change (map (normalize_inner_page TARGET_W TARGET_H) body)
      with (normalize_inner_page TARGET_W TARGET_H <$> body).
    rewrite list_lookup_fmap, Hi. reflexivity.
  - intros i page Hi.
    destruct (Forall2_lookup_l _ _ _ _ _ Hall Hi) as (page' & Hi' & Hpage).
    exists page'. split.
    + rewrite lookup_app_l; [exact Hi' |]. apply lookup_lt_Some in Hi'. exact Hi'.
    + destruct (normalize_preface_page_outcome TARGET_W TARGET_H page)
        as [[_ Hraise] | [_ (page'' & Hpage'' & _ & Htrans)]].
      * rewrite Hraise in Hpage. discriminate Hpage.
      * rewrite Hpage'' in Hpage. apply Returns_inj in Hpage. subst page''.
        exact Htrans.
Qed.

End MergerMore.

Lemma merge_output_pages_witness :
  exists out,
    Example.merged = Returns out /\
    length out = 3 /\
    Forall (Merger.stamped ((8625 # 1000) * 72) ((875 # 100) * 72)) out.
Proof.
  destruct Example.merged as [out | e] eqn:Hmerged;
    [| vm_compute in Hmerged; discriminate Hmerged].
  exists out. split; [reflexivity |].
  destruct (merge_output_pages _ _ _ _ _ _ _ Hmerged) as (Hlen & Hst & _).
  split; [exact Hlen | exact Hst].
Defined.

(** ** The command line run *)

Section CliFacts.
Import Cli.
Local Open Scope Q_scope.
Variable image_mean : string -> outcome (float * float * float).
Variable wrap : string -> ParagraphStyle -> Q -> Q -> Q * Q.
Variable image_size : string -> outcome (Z * Z).
Variable load_manuscript : string -> outcome Assembler.Manuscript.
Variable glob : string -> list string.
Variable lay_out
  : Assembler.Frame -> list Flowable -> outcome (list (list Flowable)).
Variable pdf_page : Assembler.Page -> Merger.Page.

Abbreviation run_main :=
  (main image_mean wrap image_size load_manuscript glob lay_out pdf_page).
Abbreviation body_of args data :=
  (Assembler.build_inner_book image_mean wrap image_size
     (Images.load_image_paths glob (images_dir args)) lay_out data
     (font_size args) (margin_inch args) (page_width_inch args)
     (page_height_inch args)).
Abbreviation unscalable TARGET_W TARGET_H page :=
  (Merger.within_tolerance (Merger.box_width (Merger.mediabox page))
     (Merger.box_height (Merger.mediabox page)) TARGET_W TARGET_H = false /\
   (Merger.box_width (Merger.mediabox page) == 0 \/
    Merger.box_height (Merger.mediabox page) == 0)).

(** The first half of [main]: the body that was built is written to the
    temporary file. *)
Lemma main_builds args data doc (files : gmap string (list Merger.Page)) :
  load_manuscript (manuscript args) = Returns data ->
  body_of args data = Returns doc ->
  Cli.build_inner_book image_mean wrap image_size load_manuscript glob lay_out
    pdf_page (manuscript args) inner_book_path (images_dir args)
    (font_size args) (margin_inch args) (page_width_inch args)
    (page_height_inch args) files
  = (<[inner_book_path := map pdf_page doc]> files, Returns tt).
Proof.
  intros Hload Hdoc. unfold Cli.build_inner_book. rewrite Hload, Hdoc.
  reflexivity.
Qed.


(** X18: the output must not be named like the temporary file. When the
    output path is [_inner_book_tmp.pdf], a run that succeeds ends by removing
    the book it has just written. *)
Theorem main_output_is_temporary args data doc front
    (files : gmap string (list Merger.Page)) :
  load_manuscript (manuscript args) = Returns data ->
  body_of args data = Returns doc ->
  files !! preface args = Some front ->
  (forall page, In page front ->
     ~ unscalable (page_width_inch args * 72) (page_height_inch args * 72) page) ->
  preface args <> inner_book_path ->
  output args = inner_book_path ->
  exists files',
    run_main args files = (files', Returns tt) /\
    files' !! output args = None.
Proof.
  intros Hload Hdoc Hfront Hscalable Hpre Hout.
  unfold main. rewrite (main_builds args data doc files Hload Hdoc).
  unfold Cli.merge_preface_and_book, Merger.merge_preface_and_book.
  rewrite lookup_insert_ne by congruence.
  rewrite lookup_insert_eq, Hfront.
  rewrite !bool_decide_eq_true_2 by eauto. cbn [negb default from_option id].
  destruct (mapM_normalize_outcome (page_width_inch args * 72)
              (page_height_inch args * 72) front)
    as [[(page & Hin & Hbad) _] | [_ (normalized & Hnorm & Hall)]];
    [destruct (Hscalable page Hin Hbad) |].
  rewrite Hnorm. cbn.
  eexists. split; [reflexivity |]. rewrite Hout. apply lookup_delete_eq.
Qed.

End CliFacts.

(** The body of the small run, as [main] builds it. *)
Lemma example_body :
  exists doc,
    Assembler.build_inner_book Example.image_mean Example.wrap
      Example.image_size
      (Images.load_image_paths (Example.glob ["img1.png"]) "images")
      Example.lay_out Example.manuscript 20 1 (8625 # 1000) (875 # 100)
    = Returns doc /\
    length doc = 3.
Proof. eexists. split; [vm_compute; reflexivity | reflexivity]. Qed.


Lemma main_output_is_temporary_witness :
  let args :=
    Cli.mkArgs "manuscript.json" "_inner_book_tmp.pdf" "rfh.pdf" "images"
      20 1 (8625 # 1000) (875 # 100) in
  exists files',
    Cli.main Example.image_mean Example.wrap Example.image_size
      (fun _ => Returns Example.manuscript) (Example.glob ["img1.png"])
      Example.lay_out Example.pdf_page args Example.files
    = (files', Returns tt) /\
    files' !! "_inner_book_tmp.pdf" = None.
Proof.
  intros args.
  destruct example_body as (doc & Hdoc & _).
  apply (main_output_is_temporary Example.image_mean Example.wrap
           Example.image_size (fun _ => Returns Example.manuscript)
           (Example.glob ["img1.png"]) Example.lay_out Example.pdf_page args
           Example.manuscript doc (Example.PdfReader "rfh.pdf") Example.files).
  - reflexivity.
  - exact Hdoc.
  - reflexivity.
  - intros page [<- | [<- | []]] [_ [H0 | H0]]; vm_compute in H0; discriminate H0.
  - discriminate.
  - reflexivity.
Defined.
